(** * Turtle herder: spawning and killing turtles across multimaster boundaries

    A shallow embedding of [scripts/turtle_herder.py] (package
    concert_service_turtlesim).  The class [TurtleHerder] keeps the list
    [turtles] of live names and two locks; its two service-pair callbacks
    relay spawn and kill requests to the turtlesim backend, reply to the
    caller and flip the turtle's topics through the gateway.

    Python statements become computations of a small monad [M] that threads
    the object state, records every externally visible action in a trace and
    propagates exceptions, [return] and blocking on a lock.  The answers of
    the external services (backend spawn/kill, gateway flip) and the random
    draws are inputs of the model. *)

From Stdlib Require Import List String Ascii Bool Arith Lia QArith.
From Stdlib Require Import Finite Decimal DecimalNat DecimalString.
Import ListNotations.

Local Close Scope Q_scope.
Local Open Scope string_scope.
Local Open Scope list_scope.

(* ================================================================== *)
(** ** Strings *)

(** Python's [str(count)] for a non-negative integer: decimal digits, no
    leading zero, ["0"] for zero. *)
Definition str (count : nat) : string :=
  NilEmpty.string_of_uint (Nat.to_uint count).

(** Python's [x in l] for a list of strings. *)
Definition contains (x : string) (l : list string) : bool :=
  existsb (String.eqb x) l.

(** Python's [l.remove(x)]: drops the first element equal to [x]; [None]
    stands for the [ValueError] raised when there is none. *)
Fixpoint list_remove (x : string) (l : list string) : option (list string) :=
  match l with
  | [] => None
  | y :: l' =>
      if String.eqb y x then Some l'
      else option_map (cons y) (list_remove x l')
  end.

(* ================================================================== *)
(** ** Messages *)

Module gateway_msgs.

(** Modelled from the spec: the constants of gateway_msgs/ConnectionType
    are declared outside the sources; the script uses [SUBSCRIBER] (the
    inbound direction) and [PUBLISHER] (the outbound direction), and only
    their being distinct matters. *)
Inductive ConnectionType := PUBLISHER | SUBSCRIBER.

(** Modelled from the spec: gateway_msgs/Rule is declared outside the
    sources; these are the fields the script assigns. *)
Record Rule := { type : option ConnectionType; name : string; node : string }.

(** [gateway_msgs.Rule()] : every field at its default. *)
Definition Rule_ : Rule := {| type := None; name := ""; node := "" |}.

(** Modelled from the spec: gateway_msgs/RemoteRule is declared outside
    the sources; [gateway] is the remote identity, [rule] the channel
    rule. *)
Record RemoteRule := { gateway : string; rule : Rule }.

Definition RemoteRule_ : RemoteRule := {| gateway := ""; rule := Rule_ |}.

End gateway_msgs.

Module gateway_srvs.

(** Modelled from the spec: gateway_msgs/Remote (request part) is declared
    outside the sources; a request carries the remote rules and one
    [cancel] flag. *)
Record RemoteRequest :=
  { remotes : list gateway_msgs.RemoteRule; cancel : bool }.

Definition RemoteRequest_ : RemoteRequest :=
  {| remotes := []; cancel := false |}.

End gateway_srvs.

Module turtlesim_srvs.

(** Modelled from the spec: turtlesim/Spawn and turtlesim/Kill are declared
    outside the sources.  A float is kept as the rational it denotes. *)
Record SpawnRequest := { x : Q; y : Q; theta : Q; name : string }.

Record KillRequest := { kill_name : string }.

End turtlesim_srvs.

Module concert_service_msgs.

(** Modelled from the spec: the messages of the two service pairs are
    declared outside the sources; a spawn request and its response carry a
    name, a kill request carries a name and its response is empty. *)
Record SpawnTurtleRequest := { spawn_request_name : string }.
Record SpawnTurtleResponse := { name : string }.
Record KillTurtleRequest := { kill_request_name : string }.
Inductive KillTurtleResponse := KillTurtleResponse_.

End concert_service_msgs.

(** uuid_msgs/UniqueID: the bytes of the request identifier. *)
Definition UniqueID := string.

(* ================================================================== *)
(** ** Object state, trace and the monad of handlers *)

Inductive lock := SpawnLock | KillLock.

Record TurtleHerder :=
  { turtles : list string;
    _spawn_lock : bool;     (* [true]: the lock is held *)
    _kill_lock : bool }.

Definition set_turtles (l : list string) (self : TurtleHerder) :=
  {| turtles := l;
     _spawn_lock := _spawn_lock self;
     _kill_lock := _kill_lock self |}.

Definition locked (l : lock) (self : TurtleHerder) : bool :=
  match l with
  | SpawnLock => _spawn_lock self
  | KillLock => _kill_lock self
  end.

Definition set_lock (l : lock) (b : bool) (self : TurtleHerder) :=
  match l with
  | SpawnLock =>
      {| turtles := turtles self; _spawn_lock := b;
         _kill_lock := _kill_lock self |}
  | KillLock =>
      {| turtles := turtles self; _spawn_lock := _spawn_lock self;
         _kill_lock := b |}
  end.

(** The actions a handler performs on the outside world, in program
    order. *)
Inductive event :=
| LockAcquire (l : lock)
| LockRelease (l : lock)
| BackendSpawn (request : turtlesim_srvs.SpawnRequest)
| BackendKill (request : turtlesim_srvs.KillRequest)
| ReplySpawn (request_id : UniqueID)
             (response : concert_service_msgs.SpawnTurtleResponse)
| ReplyKill (request_id : UniqueID)
            (response : concert_service_msgs.KillTurtleResponse)
| GatewayFlip (request : gateway_srvs.RemoteRequest)
| LogErr (text : string)
| LogInfo (text : string).

Inductive exn :=
| ServiceException (e : string)
| ROSInterruptException
| ValueError       (* [list.remove] of an absent element *)
| ThreadError.     (* [release] of a lock that is not held *)

(** How a piece of code ends. *)
Inductive signal (A : Type) :=
| Normal (a : A)       (* falls through with a value *)
| Raised (e : exn)     (* an exception propagates *)
| Returned             (* a [return] statement leaves the function *)
| Waiting (l : lock)   (* [acquire] on a held lock: the thread blocks *)
| Diverged.            (* a loop ran out of fuel *)

Arguments Normal {A} a.
Arguments Raised {A} e.
Arguments Returned {A}.
Arguments Waiting {A} l.
Arguments Diverged {A}.

Definition M (A : Type) : Type :=
  TurtleHerder -> signal A * TurtleHerder * list event.

Definition ret {A} (a : A) : M A := fun self => (Normal a, self, []).

Definition bind {A B} (m : M A) (k : A -> M B) : M B :=
  fun self =>
    match m self with
    | (Normal a, self', t) =>
        match k a self' with
        | (r, self'', t') => (r, self'', t ++ t')
        end
    | (Raised e, self', t) => (Raised e, self', t)
    | (Returned, self', t) => (Returned, self', t)
    | (Waiting l, self', t) => (Waiting l, self', t)
    | (Diverged, self', t) => (Diverged, self', t)
    end.

Notation "x <- m ;; k" := (bind m (fun x => k))
  (at level 61, m at next level, right associativity).
Notation "m ;; k" := (bind m (fun _ => k))
  (at level 61, right associativity).

Definition emit (e : event) : M unit := fun self => (Normal tt, self, [e]).
Definition raise {A} (e : exn) : M A := fun self => (Raised e, self, []).
Definition return_ {A} : M A := fun self => (Returned, self, []).
Definition gets {A} (f : TurtleHerder -> A) : M A :=
  fun self => (Normal (f self), self, []).
Definition modify (f : TurtleHerder -> TurtleHerder) : M unit :=
  fun self => (Normal tt, f self, []).

(** [try: body except ...]: [handlers e] is the clause that catches [e],
    [None] when no clause does. *)
Definition try_except {A} (body : M A) (handlers : exn -> option (M A)) : M A :=
  fun self =>
    match body self with
    | (Raised e, self', t) =>
        match handlers e with
        | Some h =>
            match h self' with
            | (r, self'', t') => (r, self'', t ++ t')
            end
        | None => (Raised e, self', t)
        end
    | r => r
    end.

(** The body of a [def]: a [return] ends the call normally. *)
Definition def (body : M unit) : M unit :=
  fun self =>
    match body self with
    | (Returned, self', t) => (Normal tt, self', t)
    | r => r
    end.

(** [threading.Lock]. *)
Definition acquire (l : lock) : M unit :=
  fun self =>
    if locked l self then (Waiting l, self, [])
    else (Normal tt, set_lock l true self, [LockAcquire l]).

Definition release (l : lock) : M unit :=
  fun self =>
    if locked l self then (Normal tt, set_lock l false self, [LockRelease l])
    else (Raised ThreadError, self, []).

(** What a remote service does with one call. *)
Inductive answer :=
| Responds                 (* a response comes back *)
| Fails (e : string)       (* [rospy.ServiceException] with its text *)
| Interrupted.             (* [rospy.ROSInterruptException] *)

(** A call through a [rospy.ServiceProxy]. *)
Definition service_call (request : event) (a : answer) : M unit :=
  emit request ;;
  match a with
  | Responds => ret tt
  | Fails e => raise (ServiceException e)
  | Interrupted => raise ROSInterruptException
  end.

Definition logerr (text : string) : M unit := emit (LogErr text).
Definition loginfo (text : string) : M unit := emit (LogInfo text).

(* ================================================================== *)
(** ** class TurtleHerder *)

(** [__init__]: no turtle, both locks free. *)
Definition init : TurtleHerder :=
  {| turtles := []; _spawn_lock := false; _kill_lock := false |}.

(** The namespace under which a turtle's topics live. *)
Definition namespace : string := "/services/turtlesim".

(** [_send_flip_rules_request(self, name, cancel)].  [flip] is the answer of
    the gateway flip service to the request. *)
Definition _send_flip_rules_request
    (flip : answer) (name : string) (cancel : bool) : M unit :=
  def (
    let rules := [] in
    let rule := gateway_msgs.Rule_ in
    let rule :=
      {| gateway_msgs.type := gateway_msgs.type rule;
         gateway_msgs.name := gateway_msgs.name rule;
         gateway_msgs.node := "" |} in
    let rule :=
      {| gateway_msgs.type := Some gateway_msgs.SUBSCRIBER;
         gateway_msgs.name := gateway_msgs.name rule;
         gateway_msgs.node := gateway_msgs.node rule |} in
    let rule :=
      {| gateway_msgs.type := gateway_msgs.type rule;
         gateway_msgs.name := "/services/turtlesim/" ++ name ++ "/cmd_vel";
         gateway_msgs.node := gateway_msgs.node rule |}%string in
    let rules := rules ++ [rule] in
    let rule :=
      {| gateway_msgs.type := Some gateway_msgs.PUBLISHER;
         gateway_msgs.name := gateway_msgs.name rule;
         gateway_msgs.node := gateway_msgs.node rule |} in
    let rule :=
      {| gateway_msgs.type := gateway_msgs.type rule;
         gateway_msgs.name := "/services/turtlesim/" ++ name ++ "/pose";
         gateway_msgs.node := gateway_msgs.node rule |}%string in
    let rules := rules ++ [rule] in
    (* send the request *)
    let request := gateway_srvs.RemoteRequest_ in
    let request :=
      {| gateway_srvs.remotes := gateway_srvs.remotes request;
         gateway_srvs.cancel := cancel |} in
    let remote_rule := gateway_msgs.RemoteRule_ in
    let remote_rule :=
      {| gateway_msgs.gateway := name;
         gateway_msgs.rule := gateway_msgs.rule remote_rule |} in
    let '(request, _) :=
      fold_left
        (fun '(request, remote_rule) rule =>
           let remote_rule :=
             {| gateway_msgs.gateway := gateway_msgs.gateway remote_rule;
                gateway_msgs.rule := rule |} in
           ({| gateway_srvs.remotes :=
                 gateway_srvs.remotes request ++ [remote_rule];
               gateway_srvs.cancel := gateway_srvs.cancel request |},
            remote_rule))
        rules (request, remote_rule) in
    try_except
      (service_call (GatewayFlip request) flip)
      (fun e =>
         match e with
         | ServiceException e =>
             Some (logerr ("TurtleHerder : failed to send flip rules ["
                           ++ e ++ "]")%string ;;
                   return_)
         | ROSInterruptException =>
             Some (loginfo "TurtleHerder : shutdown while contacting the gateway flip service" ;;
                   return_)
         | _ => None
         end)).

(** [self.turtles.remove(name)]. *)
Definition turtles_remove (name : string) : M unit :=
  fun self =>
    match list_remove name (turtles self) with
    | Some l => (Normal tt, set_turtles l self, [])
    | None => (Raised ValueError, self, [])
    end.

(** [self.turtles.append(name)]. *)
Definition turtles_append (name : string) : M unit :=
  modify (fun self => set_turtles (turtles self ++ [name]) self).

(** [_kill_turtle_service(self, request_id, msg)].  [kill_client] and [flip]
    are the answers of the backend kill service and of the gateway. *)
Definition _kill_turtle_service
    (kill_client flip : answer)
    (request_id : UniqueID) (msg : concert_service_msgs.KillTurtleRequest)
  : M unit :=
  let msg_name := concert_service_msgs.kill_request_name msg in
  def (
    acquire KillLock ;;
    let response := concert_service_msgs.KillTurtleResponse_ in
    let internal_service_request :=
      {| turtlesim_srvs.kill_name := msg_name |} in
    try_except
      (service_call (BackendKill internal_service_request) kill_client ;;
       turtles_remove msg_name)
      (fun e =>
         match e with
         | ServiceException _ =>  (* communication failed *)
             Some (logerr "Turtle Herder : failed to contact the internal kill turtle service")
         | ROSInterruptException =>
             Some (loginfo "Turtle Herder : shutdown while contacting the internal kill turtle service" ;;
                   release KillLock ;;
                   return_)
         | _ => None
         end) ;;
    emit (ReplyKill request_id response) ;;
    _send_flip_rules_request flip msg_name true ;;
    release KillLock).

(** The loop
    [while name + name_extension in self.turtles:
         name_extension = '_' + str(count); count = count + 1]
    on the loop variables [(name_extension, count)]; [None] when [fuel]
    iterations did not leave it. *)
Fixpoint while_in_turtles (fuel : nat) (l : list string) (name : string)
    (name_extension : string) (count : nat) : option (string * nat) :=
  match fuel with
  | O => None
  | S fuel' =>
      if contains (name ++ name_extension)%string l
      then while_in_turtles fuel' l name ("_" ++ str count)%string (count + 1)
      else Some (name_extension, count)
  end.

(** The unique-name block of [_spawn_turtle_service]; one more iteration
    than the registry has entries is allowed (see [unique_name_total]). *)
Definition unique_name (name : string) : M string :=
  fun self =>
    let name_extension := "" in
    let count := 0 in
    match while_in_turtles (S (List.length (turtles self))) (turtles self)
                           name name_extension count with
    | Some (name_extension, _) =>
        (Normal (name ++ name_extension)%string, self, [])
    | None => (Diverged, self, [])
    end.

(** The three [random.uniform] draws of a spawn: x, y, theta. *)
Definition draws : Type := (Q * Q * Q)%type.

(** [_spawn_turtle_service(self, request_id, msg)].  [spawn_client] and
    [flip] are the answers of the backend spawn service and of the
    gateway. *)
Definition _spawn_turtle_service
    (random : draws) (spawn_client flip : answer)
    (request_id : UniqueID) (msg : concert_service_msgs.SpawnTurtleRequest)
  : M unit :=
  def (
    acquire SpawnLock ;;
    (* Unique name *)
    name <- unique_name (concert_service_msgs.spawn_request_name msg) ;;
    let internal_service_request :=
      let '(x, y, theta) := random in
      {| turtlesim_srvs.x := x; turtlesim_srvs.y := y;
         turtlesim_srvs.theta := theta; turtlesim_srvs.name := name |} in
    name <-
      try_except
        (service_call (BackendSpawn internal_service_request) spawn_client ;;
         turtles_append name ;;
         ret name)
        (fun e =>
           match e with
           | ServiceException e =>  (* communication failed *)
               Some (logerr ("TurtleHerder : failed to contact the internal spawn turtle service ["
                             ++ e ++ "]")%string ;;
                     ret "")
           | ROSInterruptException =>
               Some (loginfo "TurtleHerder : shutdown while contacting the internal spawn turtle service" ;;
                     release SpawnLock ;;
                     return_)
           | _ => None
           end) ;;
    let response := {| concert_service_msgs.name := name |} in
    emit (ReplySpawn request_id response) ;;
    _send_flip_rules_request flip name false ;;
    release SpawnLock).

(** [shutdown(self)]: the loop [for name in self.turtles] with its [break]s.
    [kill_client k] is the backend's answer to the [k]-th call. *)
Fixpoint shutdown_for (kill_client : nat -> answer) (k : nat)
    (names : list string) : M unit :=
  match names with
  | [] => ret tt
  | name :: names' =>
      break <-
        try_except
          (service_call (BackendKill {| turtlesim_srvs.kill_name := name |})
                        (kill_client k) ;;
           ret false)
          (fun e =>
             match e with
             | ServiceException _ => Some (ret true)   (* quietly fail *)
             | ROSInterruptException => Some (ret true)   (* quietly fail *)
             | _ => None
             end) ;;
      if break then ret tt else shutdown_for kill_client (S k) names'
  end.

Definition shutdown (kill_client : nat -> answer) : M unit :=
  def (names <- gets turtles ;; shutdown_for kill_client 0 names).

(* ================================================================== *)
(** ** Sequences of requests *)

(** One request delivered to a relay endpoint, with what the outside world
    does during its handling. *)
Inductive request :=
| SpawnTurtle (random : draws) (spawn_client flip : answer)
              (request_id : UniqueID)
              (msg : concert_service_msgs.SpawnTurtleRequest)
| KillTurtle (kill_client flip : answer)
             (request_id : UniqueID)
             (msg : concert_service_msgs.KillTurtleRequest).

Definition handle (r : request) : M unit :=
  match r with
  | SpawnTurtle random spawn_client flip request_id msg =>
      _spawn_turtle_service random spawn_client flip request_id msg
  | KillTurtle kill_client flip request_id msg =>
      _kill_turtle_service kill_client flip request_id msg
  end.

(** State and trace after handling one request; a handler that raised or
    blocked leaves the state it reached. *)
Definition step (self : TurtleHerder) (r : request)
  : TurtleHerder * list event :=
  match handle r self with
  | (_, self', t) => (self', t)
  end.

(** Handles the requests one after the other: the states passed through
    (the first is the starting state) and the whole trace. *)
Fixpoint run (self : TurtleHerder) (rs : list request)
  : list TurtleHerder * list event :=
  match rs with
  | [] => ([self], [])
  | r :: rs' =>
      let '(self', t) := step self r in
      let '(states, t') := run self' rs' in
      (self :: states, t ++ t')
  end.

(** Projections of a trace. *)
Definition flip_requests (t : list event) : list gateway_srvs.RemoteRequest :=
  flat_map (fun e => match e with GatewayFlip r => [r] | _ => [] end) t.

Definition spawn_replies (t : list event) : list string :=
  flat_map (fun e => match e with
                     | ReplySpawn _ r => [concert_service_msgs.name r]
                     | _ => []
                     end) t.

Definition kill_calls (t : list event) : list string :=
  flat_map (fun e => match e with
                     | BackendKill r => [turtlesim_srvs.kill_name r]
                     | _ => []
                     end) t.

(** The value of [name_extension] when the loop test is evaluated for the
    [i]-th time (counting from 0): empty at first, then ["_0"], ["_1"],
    ... *)
Definition name_extension_at (i : nat) : string :=
  match i with
  | O => ""
  | S k => ("_" ++ str k)%string
  end.

(** The two rules of a flip request for [name]. *)
Definition subscriber_rule (name : string) : gateway_msgs.Rule :=
  {| gateway_msgs.type := Some gateway_msgs.SUBSCRIBER;
     gateway_msgs.name := (namespace ++ "/" ++ name ++ "/cmd_vel")%string;
     gateway_msgs.node := "" |}.

Definition publisher_rule (name : string) : gateway_msgs.Rule :=
  {| gateway_msgs.type := Some gateway_msgs.PUBLISHER;
     gateway_msgs.name := (namespace ++ "/" ++ name ++ "/pose")%string;
     gateway_msgs.node := "" |}.

(** The request [_send_flip_rules_request] hands to the gateway. *)
Definition flip_request (name : string) (cancel : bool)
  : gateway_srvs.RemoteRequest :=
  {| gateway_srvs.remotes :=
       [ {| gateway_msgs.gateway := name;
            gateway_msgs.rule := subscriber_rule name |};
         {| gateway_msgs.gateway := name;
            gateway_msgs.rule := publisher_rule name |} ];
     gateway_srvs.cancel := cancel |}.

(** What [_send_flip_rules_request] writes to the log for each answer of the
    gateway. *)
Definition flip_log (flip : answer) : list event :=
  match flip with
  | Responds => []
  | Fails e =>
      [LogErr ("TurtleHerder : failed to send flip rules [" ++ e ++ "]")%string]
  | Interrupted =>
      [LogInfo "TurtleHerder : shutdown while contacting the gateway flip service"]
  end.

(** A backend call came back with a response. *)
Definition responded (a : answer) : bool :=
  match a with
  | Responds => true
  | _ => false
  end.

(** The lock a request's handler takes, the gateway's answer during its
    handling, and the [cancel] flag of its flip request. *)
Definition lock_of (r : request) : lock :=
  match r with
  | SpawnTurtle _ _ _ _ _ => SpawnLock
  | KillTurtle _ _ _ _ => KillLock
  end.

Definition flip_of (r : request) : answer :=
  match r with
  | SpawnTurtle _ _ flip _ _ => flip
  | KillTurtle _ flip _ _ => flip
  end.

Definition cancel_of (r : request) : bool :=
  match r with
  | SpawnTurtle _ _ _ _ _ => false
  | KillTurtle _ _ _ _ => true
  end.

(** A successful spawn: the backend created the turtle.  A successful kill:
    the backend destroyed a turtle of the registry. *)
Definition successful (self : TurtleHerder) (r : request) : bool :=
  match r with
  | SpawnTurtle _ spawn_client _ _ _ => responded spawn_client
  | KillTurtle kill_client _ _ msg =>
      responded kill_client
      && contains (concert_service_msgs.kill_request_name msg) (turtles self)
  end.

(** The backend call and the reply of a successful request that ends with
    the turtle [name]. *)
Definition backend_call_of (r : request) (name : string) : event :=
  match r with
  | SpawnTurtle (x, y, theta) _ _ _ _ =>
      BackendSpawn {| turtlesim_srvs.x := x; turtlesim_srvs.y := y;
                      turtlesim_srvs.theta := theta;
                      turtlesim_srvs.name := name |}
  | KillTurtle _ _ _ _ =>
      BackendKill {| turtlesim_srvs.kill_name := name |}
  end.

Definition reply_of (r : request) (name : string) : event :=
  match r with
  | SpawnTurtle _ _ _ request_id _ =>
      ReplySpawn request_id {| concert_service_msgs.name := name |}
  | KillTurtle _ _ request_id _ =>
      ReplyKill request_id concert_service_msgs.KillTurtleResponse_
  end.

(** The turtle a successful request is about: the name a spawn appended to
    the registry, the name a kill asked for. *)
Definition turtle_of (self' : TurtleHerder) (r : request) : string :=
  match r with
  | SpawnTurtle _ _ _ _ _ => last (turtles self') ""
  | KillTurtle _ _ _ msg => concert_service_msgs.kill_request_name msg
  end.

(** Spawn requests that all ask for the name [x] and that the backend
    serves; each comes with its own draws, gateway answer and identifier. *)
Definition same_name_spawns (x : string)
    (ps : list (draws * answer * UniqueID)) : list request :=
  map (fun '(random, flip, request_id) =>
         SpawnTurtle random Responds flip request_id
           {| concert_service_msgs.spawn_request_name := x |})
      ps.

(** No request went to the gateway. *)
Definition no_visibility_call (t : list event) : Prop :=
  flip_requests t = [].

Definition kill_event (name : string) : event :=
  BackendKill {| turtlesim_srvs.kill_name := name |}.

(** The backend's answer during the handling of a request. *)
Definition backend_of (r : request) : answer :=
  match r with
  | SpawnTurtle _ spawn_client _ _ _ => spawn_client
  | KillTurtle kill_client _ _ _ => kill_client
  end.

(** The same request under another answer of the gateway. *)
Definition with_flip (flip : answer) (r : request) : request :=
  match r with
  | SpawnTurtle random spawn_client _ request_id msg =>
      SpawnTurtle random spawn_client flip request_id msg
  | KillTurtle kill_client _ request_id msg =>
      KillTurtle kill_client flip request_id msg
  end.

(** Log lines, and a trace without them. *)
Definition is_log (e : event) : bool :=
  match e with
  | LogErr _ | LogInfo _ => true
  | _ => false
  end.

Definition actions (t : list event) : list event :=
  filter (fun e => negb (is_log e)) t.

(** The replies delivered to callers, of both kinds. *)
Definition is_reply (e : event) : bool :=
  match e with
  | ReplySpawn _ _ | ReplyKill _ _ => true
  | _ => false
  end.

Definition replies (t : list event) : list event := filter is_reply t.

(** The two channels of a turtle, as the flip rules name them. *)
Definition cmd_vel_channel (name : string) : string :=
  gateway_msgs.name (subscriber_rule name).

Definition pose_channel (name : string) : string :=
  gateway_msgs.name (publisher_rule name).

(** A spawn request whose backend call is not interrupted. *)
Definition answered_spawn (r : request) : bool :=
  match r with
  | SpawnTurtle _ Interrupted _ _ _ => false
  | SpawnTurtle _ _ _ _ _ => true
  | KillTurtle _ _ _ _ => false
  end.

(** The last character of a string, if any. *)
Fixpoint last_char (s : string) : option ascii :=
  match s with
  | EmptyString => None
  | String c s' =>
      match last_char s' with
      | None => Some c
      | Some c' => Some c'
      end
  end.

(* ------------------------------------------------------------------ *)
(** *** Construction and the launch point *)

(** What the constructor does, in program order: besides the actions of
    [event] (its backend call and its log lines), the calls into rospy and
    the gateway utilities. *)
Inductive startup_event :=
| WaitForService (service : string)
| ServiceProxy (service : string) (persistent : bool)
| ResolveLocalGateway
| ServicePairServer (name : string) (use_threads : bool)
| Did (e : event).

(** [__init__(self)].  [kill_client] is the backend's answer to the kill of
    the default turtle, [gateway_namespace] what
    [rocon_gateway_utils.resolve_local_gateway()] returns; the waits for the
    services are taken to come back.  The result is the object, what was
    done, and whether the two service-pair servers were created. *)
Definition __init__ (kill_client : answer) (gateway_namespace : string)
  : TurtleHerder * list startup_event * bool :=
  let self :=
    {| turtles := []; _spawn_lock := false; _kill_lock := false |} in
  (* herding backend *)
  let backend :=
    [WaitForService "~internal/kill"; WaitForService "~internal/spawn";
     ServiceProxy "~internal/spawn" true; ServiceProxy "~internal/kill" true] in
  (* kill the default turtle that turtlesim starts with *)
  match
    try_except
      (service_call (BackendKill {| turtlesim_srvs.kill_name := "turtle1" |})
                    kill_client)
      (fun e =>
         match e with
         | ServiceException _ =>
             Some (logerr "Turtle Herder : failed to contact the internal kill turtle service")
         | ROSInterruptException =>
             Some (loginfo "Turtle Herder : shutdown while contacting the internal kill turtle service" ;;
                   return_)
         | _ => None
         end)
      self
  with
  | (Normal _, self, t) =>
      (* herding frontend *)
      (self,
       backend ++ map Did t
       ++ [ResolveLocalGateway;
           WaitForService (gateway_namespace ++ "/flip")%string;
           ServiceProxy (gateway_namespace ++ "/flip")%string false;
           ServicePairServer "kill" true;
           ServicePairServer "spawn" true],
       true)
  | (_, self, t) => (self, backend ++ map Did t, false)
  end.

(** The launch point: construct the herder, serve the requests that arrive
    until the node shuts down ([rospy.spin()]; requests reach the handlers
    only through the two servers, and are taken one after the other), then
    [shutdown].  The result is the three traces. *)
Definition main (kill_turtle1 : answer) (gateway_namespace : string)
    (rs : list request) (kill_client : nat -> answer)
  : list startup_event * list event * list event :=
  let '(turtle_herder, started, serving) :=
    __init__ kill_turtle1 gateway_namespace in
  let '(states, served) :=
    if serving then run turtle_herder rs else ([turtle_herder], []) in
  let '(_, _, stopped) :=
    shutdown kill_client (last states turtle_herder) in
  (started, served, stopped).

(** Projections of a startup trace. *)
Definition servers (t : list startup_event) : list string :=
  flat_map (fun e => match e with
                     | ServicePairServer name _ => [name]
                     | _ => []
                     end) t.

Definition startup_kills (t : list startup_event) : list string :=
  flat_map (fun e => match e with
                     | Did (BackendKill r) => [turtlesim_srvs.kill_name r]
                     | _ => []
                     end) t.

Definition interrupted (a : answer) : bool :=
  match a with
  | Interrupted => true
  | _ => false
  end.

(* ================================================================== *)
(** ** Strings and lists *)

Lemma append_inj_r (a b c : string) :
  (a ++ b)%string = (a ++ c)%string -> b = c.
Proof.
  induction a as [|ch a IH]; simpl; intros H.
  - exact H.
  - injection H as H. auto.
Qed.

Lemma str_inj (n m : nat) : str n = str m -> n = m.
Proof.
  unfold str. intros H.
  assert (E : Some (Nat.to_uint n) = Some (Nat.to_uint m)).
  { rewrite <- !NilEmpty.usu. now rewrite H. }
  injection E as E.
  rewrite <- (Unsigned.of_to n), <- (Unsigned.of_to m).
  now rewrite E.
Qed.

Lemma name_extension_at_inj (i j : nat) :
  name_extension_at i = name_extension_at j -> i = j.
Proof.
  destruct i, j; simpl; intros H; try discriminate; auto.
  injection H as H. f_equal. now apply str_inj.
Qed.

Lemma candidate_inj (name : string) (i j : nat) :
  (name ++ name_extension_at i)%string = (name ++ name_extension_at j)%string ->
  i = j.
Proof.
  intros H. apply name_extension_at_inj. eapply append_inj_r. exact H.
Qed.

Lemma contains_In (x : string) (l : list string) :
  contains x l = true <-> In x l.
Proof.
  unfold contains. rewrite existsb_exists. split.
  - intros (y & Hy & E). apply String.eqb_eq in E. now subst.
  - intros H. exists x. split; [exact H | apply String.eqb_refl].
Qed.

Lemma contains_not_In (x : string) (l : list string) :
  contains x l = false <-> ~ In x l.
Proof.
  rewrite <- contains_In. destruct (contains x l); split; congruence.
Qed.

Lemma list_remove_None (x : string) (l : list string) :
  list_remove x l = None <-> ~ In x l.
Proof.
  induction l as [|y l IH]; simpl.
  - tauto.
  - destruct (String.eqb_spec y x) as [E|E].
    + split; [discriminate | intros H; exfalso; apply H; now left].
    + destruct (list_remove x l); simpl.
      * split; [discriminate |]. intros H. exfalso.
        destruct IH as [_ IH]. 
        assert (N : ~ In x l) by tauto.
        specialize (IH N). discriminate.
      * split; [| reflexivity]. intros _ [H|H]; [congruence | tauto].
Qed.

Lemma list_remove_In (x : string) (l : list string) :
  In x l -> exists l', list_remove x l = Some l'.
Proof.
  intros H. destruct (list_remove x l) eqn:E; eauto.
  apply list_remove_None in E. contradiction.
Qed.

Lemma list_remove_incl (x : string) (l l' : list string) :
  list_remove x l = Some l' -> incl l' l.
Proof.
  revert l'. induction l as [|y l IH]; simpl; intros l' H.
  - discriminate.
  - destruct (String.eqb y x).
    + injection H as <-. apply incl_tl, incl_refl.
    + destruct (list_remove x l) as [r|]; simpl in H; [|discriminate].
      injection H as <-. apply incl_cons.
      * now left.
      * apply incl_tl. now apply IH.
Qed.

Lemma list_remove_NoDup (x : string) (l l' : list string) :
  NoDup l -> list_remove x l = Some l' -> NoDup l'.
Proof.
  revert l'. induction l as [|y l IH]; simpl; intros l' N H.
  - discriminate.
  - inversion N as [|? ? Hy Nl]; subst.
    destruct (String.eqb y x).
    + now injection H as <-.
    + destruct (list_remove x l) as [r|] eqn:E; simpl in H; [|discriminate].
      injection H as <-. constructor.
      * intros Hin. apply Hy. eapply list_remove_incl; eauto.
      * now apply IH.
Qed.

Lemma NoDup_snoc (x : string) (l : list string) :
  NoDup l -> ~ In x l -> NoDup (l ++ [x]).
Proof.
  intros N H. induction N as [|y l Hy N IH]; simpl.
  - constructor; [intros [] | constructor].
  - constructor.
    + rewrite in_app_iff. simpl. intros [Hin|[E|[]]]; [tauto|].
      subst. apply H. now left.
    + apply IH. intros Hin. apply H. now right.
Qed.

(* ================================================================== *)
(** ** The unique-name loop *)

(** The loop, entered at its [i]-th test, leaves at the first candidate
    that is not in the list, when the fuel reaches that far. *)
Lemma while_in_turtles_leaves (l : list string) (name : string) (d : nat) :
  forall i fuel,
    (forall k, i <= k < i + d ->
               In (name ++ name_extension_at k)%string l) ->
    ~ In (name ++ name_extension_at (i + d))%string l ->
    d < fuel ->
    while_in_turtles fuel l name (name_extension_at i) i
    = Some (name_extension_at (i + d), i + d).
Proof.
  induction d as [|d IH]; intros i fuel Hin Hout Hfuel.
  - destruct fuel as [|fuel]; [lia|]. simpl.
    rewrite Nat.add_0_r in *.
    apply contains_not_In in Hout. now rewrite Hout.
  - destruct fuel as [|fuel]; [lia|]. simpl.
    assert (Hi : contains (name ++ name_extension_at i)%string l = true).
    { apply contains_In, Hin. lia. }
    rewrite Hi, Nat.add_1_r.
    replace (i + S d) with (S i + d) in * by lia.
    apply (IH (S i)); [|assumption|lia].
    intros k Hk. apply Hin. lia.
Qed.

(** Among the first [n] candidates either all are taken or there is a first
    free one. *)
Lemma first_free_candidate (l : list string) (name : string) (n : nat) :
  (forall k, k < n -> In (name ++ name_extension_at k)%string l) \/
  (exists d, d < n /\
             (forall k, k < d -> In (name ++ name_extension_at k)%string l) /\
             ~ In (name ++ name_extension_at d)%string l).
Proof.
  induction n as [|n [IH|(d & Hd & Hin & Hout)]].
  - left. intros k Hk. lia.
  - destruct (contains (name ++ name_extension_at n)%string l) eqn:E.
    + left. intros k Hk. apply contains_In in E.
      destruct (Nat.eq_dec k n) as [->|]; [assumption | apply IH; lia].
    + right. exists n. apply contains_not_In in E. auto.
  - right. exists d. auto.
Qed.

(** The candidates are pairwise different, so a list cannot hold more of
    them than it has entries. *)
Lemma candidates_exhaust (l : list string) (name : string) :
  ~ (forall k, k < S (List.length l) ->
               In (name ++ name_extension_at k)%string l).
Proof.
  intros H.
  set (c := map (fun k => (name ++ name_extension_at k)%string)
                (seq 0 (S (List.length l)))).
  assert (N : NoDup c).
  { apply Injective_map_NoDup; [|apply seq_NoDup].
    intros i j. apply candidate_inj. }
  assert (I : incl c l).
  { intros s Hs. apply in_map_iff in Hs as (k & <- & Hk).
    apply in_seq in Hk. apply H. lia. }
  pose proof (NoDup_incl_length N I) as L.
  unfold c in L. rewrite length_map, length_seq in L. lia.
Qed.

(** The unique-name block always terminates: it yields the requested name
    followed by the extension of the first free candidate, found within one
    test more than the list has entries. *)
Lemma unique_name_total (name : string) (self : TurtleHerder) :
  exists d,
    d <= List.length (turtles self) /\
    (forall k, k < d ->
               In (name ++ name_extension_at k)%string (turtles self)) /\
    ~ In (name ++ name_extension_at d)%string (turtles self) /\
    unique_name name self
    = (Normal (name ++ name_extension_at d)%string, self, []).
Proof.
  destruct (first_free_candidate (turtles self) name
              (S (List.length (turtles self))))
    as [H|(d & Hd & Hin & Hout)].
  - exfalso. eapply candidates_exhaust. exact H.
  - exists d. repeat split; [lia | assumption | assumption |].
    unfold unique_name.
    change "" with (name_extension_at 0).
    rewrite (while_in_turtles_leaves (turtles self) name d 0); auto.
    intros k Hk. apply Hin. lia.
Qed.

(** A free requested name is taken as it is. *)
Lemma unique_name_free (name : string) (self : TurtleHerder) :
  ~ In name (turtles self) ->
  unique_name name self = (Normal name, self, []).
Proof.
  intros H. unfold unique_name. simpl.
  assert (E : (name ++ "")%string = name).
  { clear. induction name; simpl; congruence. }
  rewrite E. apply contains_not_In in H. now rewrite H, E.
Qed.

(* ================================================================== *)
(** ** What each handler does, case by case *)

Lemma send_flip_rules_request_run
    (flip : answer) (name : string) (cancel : bool) (self : TurtleHerder) :
  _send_flip_rules_request flip name cancel self
  = (Normal tt, self, GatewayFlip (flip_request name cancel) :: flip_log flip).
Proof.
  destruct flip; reflexivity.
Qed.

Lemma kill_turtle_service_run
    (kill_client flip : answer) (request_id : UniqueID)
    (msg : concert_service_msgs.KillTurtleRequest) (self : TurtleHerder) :
  _kill_lock self = false ->
  let name := concert_service_msgs.kill_request_name msg in
  let call :=
    [LockAcquire KillLock;
     BackendKill {| turtlesim_srvs.kill_name := name |}] in
  let tail :=
    [ReplyKill request_id concert_service_msgs.KillTurtleResponse_;
     GatewayFlip (flip_request name true)]
    ++ flip_log flip ++ [LockRelease KillLock] in
  _kill_turtle_service kill_client flip request_id msg self
  = match kill_client with
    | Responds =>
        match list_remove name (turtles self) with
        | Some l => (Normal tt, set_turtles l self, call ++ tail)
        | None => (Raised ValueError, set_lock KillLock true self, call)
        end
    | Fails _ =>
        (Normal tt, self,
         call ++ [LogErr "Turtle Herder : failed to contact the internal kill turtle service"]
              ++ tail)
    | Interrupted =>
        (Normal tt, self,
         call ++ [LogInfo "Turtle Herder : shutdown while contacting the internal kill turtle service";
                  LockRelease KillLock])
    end.
Proof.
  destruct self as [ts sl kl]. simpl. intros ->.
  unfold _kill_turtle_service, def, bind, try_except, acquire, service_call,
    emit, ret, raise, turtles_remove, logerr, loginfo, release, return_.
  simpl.
  destruct kill_client; simpl.
  - destruct (list_remove _ ts); simpl.
    + rewrite send_flip_rules_request_run. reflexivity.
    + reflexivity.
  - rewrite send_flip_rules_request_run. reflexivity.
  - reflexivity.
Qed.

Lemma spawn_turtle_service_run
    (random : draws) (spawn_client flip : answer) (request_id : UniqueID)
    (msg : concert_service_msgs.SpawnTurtleRequest) (self : TurtleHerder)
    (name : string) :
  _spawn_lock self = false ->
  unique_name (concert_service_msgs.spawn_request_name msg) self
  = (Normal name, self, []) ->
  let call :=
    [LockAcquire SpawnLock;
     BackendSpawn {| turtlesim_srvs.x := fst (fst random);
                     turtlesim_srvs.y := snd (fst random);
                     turtlesim_srvs.theta := snd random;
                     turtlesim_srvs.name := name |}] in
  let tail (name : string) :=
    [ReplySpawn request_id {| concert_service_msgs.name := name |};
     GatewayFlip (flip_request name false)]
    ++ flip_log flip ++ [LockRelease SpawnLock] in
  _spawn_turtle_service random spawn_client flip request_id msg self
  = match spawn_client with
    | Responds =>
        (Normal tt, set_turtles (turtles self ++ [name]) self,
         call ++ tail name)
    | Fails e =>
        (Normal tt, self,
         call ++ [LogErr ("TurtleHerder : failed to contact the internal spawn turtle service ["
                          ++ e ++ "]")%string]
              ++ tail "")
    | Interrupted =>
        (Normal tt, self,
         call ++ [LogInfo "TurtleHerder : shutdown while contacting the internal spawn turtle service";
                  LockRelease SpawnLock])
    end.
Proof.
  destruct self as [ts sl kl]. destruct random as [[x y] theta].
  simpl. intros -> U.
  unfold _spawn_turtle_service, def, bind.
  unfold acquire at 1. simpl.
  assert (U' : unique_name (concert_service_msgs.spawn_request_name msg)
                 {| turtles := ts; _spawn_lock := true; _kill_lock := kl |}
               = (Normal name,
                  {| turtles := ts; _spawn_lock := true; _kill_lock := kl |},
                  [])).
  { unfold unique_name in *. cbn [turtles] in *.
    destruct (while_in_turtles _ _ _ _ _) as [[ext c]|]; [|discriminate].
    injection U as E. now rewrite E. }
  rewrite U'.
  unfold try_except, bind, service_call, emit, ret, raise, turtles_append,
    modify, logerr, loginfo, release, return_.
  simpl.
  destruct spawn_client; simpl.
  - rewrite send_flip_rules_request_run. reflexivity.
  - rewrite send_flip_rules_request_run. reflexivity.
  - reflexivity.
Qed.

Lemma spawn_turtle_service_blocked
    (random : draws) (spawn_client flip : answer) (request_id : UniqueID)
    (msg : concert_service_msgs.SpawnTurtleRequest) (self : TurtleHerder) :
  _spawn_lock self = true ->
  _spawn_turtle_service random spawn_client flip request_id msg self
  = (Waiting SpawnLock, self, []).
Proof.
  intros H. unfold _spawn_turtle_service, def, bind, acquire. simpl.
  now rewrite H.
Qed.

Lemma kill_turtle_service_blocked
    (kill_client flip : answer) (request_id : UniqueID)
    (msg : concert_service_msgs.KillTurtleRequest) (self : TurtleHerder) :
  _kill_lock self = true ->
  _kill_turtle_service kill_client flip request_id msg self
  = (Waiting KillLock, self, []).
Proof.
  intros H. unfold _kill_turtle_service, def, bind, acquire. simpl.
  now rewrite H.
Qed.

Lemma flip_requests_app (t t' : list event) :
  flip_requests (t ++ t') = flip_requests t ++ flip_requests t'.
Proof. apply flat_map_app. Qed.

Lemma spawn_replies_app (t t' : list event) :
  spawn_replies (t ++ t') = spawn_replies t ++ spawn_replies t'.
Proof. apply flat_map_app. Qed.

Lemma flip_requests_flip_log (flip : answer) :
  flip_requests (flip_log flip) = [].
Proof. destruct flip; reflexivity. Qed.

Lemma spawn_replies_flip_log (flip : answer) :
  spawn_replies (flip_log flip) = [].
Proof. destruct flip; reflexivity. Qed.

(* ================================================================== *)
(** ** The registry holds no name twice *)

Lemma step_NoDup (self : TurtleHerder) (r : request) :
  NoDup (turtles self) -> NoDup (turtles (fst (step self r))).
Proof.
  intros N. unfold step. destruct r as [random sc flip id msg|kc flip id msg];
    simpl.
  - destruct (_spawn_lock self) eqn:L.
    + now rewrite spawn_turtle_service_blocked.
    + destruct (unique_name_total
                  (concert_service_msgs.spawn_request_name msg) self)
        as (d & _ & _ & Hout & U).
      rewrite (spawn_turtle_service_run _ _ _ _ _ _ _ L U).
      destruct sc; simpl; auto using NoDup_snoc.
  - destruct (_kill_lock self) eqn:L.
    + now rewrite kill_turtle_service_blocked.
    + rewrite (kill_turtle_service_run _ _ _ _ _ L).
      destruct kc; simpl; auto.
      destruct (list_remove _ _) eqn:E; simpl; eauto using list_remove_NoDup.
Qed.

Lemma run_NoDup (rs : list request) :
  forall self,
    NoDup (turtles self) ->
    Forall (fun self' => NoDup (turtles self')) (fst (run self rs)).
Proof.
  induction rs as [|r rs IH]; intros self N; simpl.
  - constructor; [assumption | constructor].
  - pose proof (step_NoDup self r N) as N'.
    destruct (step self r) as [self' t]. simpl in N'.
    specialize (IH self' N').
    destruct (run self' rs) as [states t']. simpl in *.
    constructor; assumption.
Qed.

(** C1.  Whatever spawn and kill requests are handled one after the other,
    starting from the empty registry, and whatever the backend and the
    gateway answer, no state passed through holds a name twice in
    [turtles]. *)
Theorem registry_never_holds_a_name_twice (rs : list request) :
  Forall (fun self => NoDup (turtles self)) (fst (run init rs)).
Proof.
  apply run_NoDup. simpl. constructor.
Qed.

(* ================================================================== *)
(** ** Names handed out to spawns of one requested name *)

Lemma append_empty (s : string) : (s ++ "")%string = s.
Proof. induction s; simpl; congruence. Qed.

(** With the candidates below [m] taken and those from [m] on free, the
    unique-name block yields the [m]-th candidate. *)
Lemma unique_name_next (x : string) (m : nat) (self : TurtleHerder) :
  (forall k, k < m -> In (x ++ name_extension_at k)%string (turtles self)) ->
  ~ In (x ++ name_extension_at m)%string (turtles self) ->
  unique_name x self = (Normal (x ++ name_extension_at m)%string, self, []).
Proof.
  intros Hin Hout.
  destruct (unique_name_total x self) as (d & _ & Din & Dout & U).
  destruct (Nat.lt_trichotomy d m) as [L|[E|L]].
  - exfalso. apply Dout, Hin, L.
  - now subst.
  - exfalso. apply Hout, Din, L.
Qed.

Lemma same_name_spawns_replies (x : string)
    (ps : list (draws * answer * UniqueID)) :
  forall m self,
    _spawn_lock self = false ->
    (forall k, k < m -> In (x ++ name_extension_at k)%string (turtles self)) ->
    (forall k, m <= k ->
               ~ In (x ++ name_extension_at k)%string (turtles self)) ->
    spawn_replies (snd (run self (same_name_spawns x ps)))
    = map (fun k => (x ++ name_extension_at k)%string)
          (seq m (List.length ps)).
Proof.
  induction ps as [|[[random flip] id] ps IH]; intros m self L Hin Hout.
  - reflexivity.
  - simpl. unfold step. simpl.
    pose proof (unique_name_next x m self Hin (Hout m (le_n m))) as U.
    rewrite (spawn_turtle_service_run random Responds flip id
               {| concert_service_msgs.spawn_request_name := x |} self _ L U).
    specialize (IH (S m)
                  (set_turtles (turtles self ++ [x ++ name_extension_at m]%string)
                               self)).
    destruct (run _ (same_name_spawns x ps)) as [states t'].
    simpl in IH. simpl.
    rewrite !spawn_replies_app, spawn_replies_flip_log. simpl.
    f_equal. apply IH.
    + exact L.
    + intros k Hk. apply in_or_app.
      destruct (Nat.eq_dec k m) as [->|]; [right; now left|].
      left. apply Hin. lia.
    + intros k Hk Hk'. apply in_app_or in Hk' as [Hk'|[E|[]]].
      * apply (Hout k); [lia | assumption].
      * apply candidate_inj in E. lia.
Qed.

(** C6.  [N >= 1] spawns in a row that all ask for the name [x] and that the
    backend serves, from a registry holding neither [x] nor any [x_i], are
    replied [x], [x_0], [x_1], ..., [x_(N-2)] in request order.  And every
    served spawn, from any registry and for any requested name, is replied
    the requested name followed by a suffix (empty or ["_"] and a counter),
    which is also the name the registry gains: the requested name is never
    rewritten. *)
Theorem same_name_spawns_are_numbered
    (x : string) (self : TurtleHerder)
    (ps : list (draws * answer * UniqueID)) :
  _spawn_lock self = false ->
  ~ In x (turtles self) ->
  (forall i, ~ In (x ++ "_" ++ str i)%string (turtles self)) ->
  1 <= List.length ps ->
  spawn_replies (snd (run self (same_name_spawns x ps)))
  = x :: map (fun i => (x ++ "_" ++ str i)%string)
             (seq 0 (List.length ps - 1))
  /\
  (forall (name : string) (random : draws) (flip : answer)
          (request_id : UniqueID) (self0 : TurtleHerder),
      _spawn_lock self0 = false ->
      exists suffix : string,
        (suffix = "" \/ exists count, suffix = ("_" ++ str count)%string) /\
        step self0
             (SpawnTurtle random Responds flip request_id
                {| concert_service_msgs.spawn_request_name := name |})
        = (set_turtles (turtles self0 ++ [name ++ suffix]%string) self0,
           [LockAcquire SpawnLock;
            BackendSpawn {| turtlesim_srvs.x := fst (fst random);
                            turtlesim_srvs.y := snd (fst random);
                            turtlesim_srvs.theta := snd random;
                            turtlesim_srvs.name := (name ++ suffix)%string |};
            ReplySpawn request_id
              {| concert_service_msgs.name := (name ++ suffix)%string |};
            GatewayFlip (flip_request (name ++ suffix)%string false)]
           ++ flip_log flip ++ [LockRelease SpawnLock])).
Proof.
  intros L Hx Hxi HN. split.
  - rewrite (same_name_spawns_replies x ps 0 self L).
    + destruct ps as [|p ps]; [simpl in HN; lia|].
      simpl List.length. rewrite Nat.sub_succ, Nat.sub_0_r.
      cbn [seq map]. rewrite <- seq_shift, map_map.
      simpl. now rewrite append_empty.
    + intros k Hk. lia.
    + intros [|k] _; simpl.
      * now rewrite append_empty.
      * apply Hxi.
  - intros name random flip id self0 L0.
    destruct (unique_name_total name self0) as (d & _ & _ & _ & U).
    exists (name_extension_at d). split.
    + destruct d; simpl; eauto.
    + unfold step. simpl.
      now rewrite (spawn_turtle_service_run random Responds flip id
                     {| concert_service_msgs.spawn_request_name := name |}
                     self0 _ L0 U).
Qed.

Lemma same_name_spawns_are_numbered_witness :
  spawn_replies
    (snd (run init
            (same_name_spawns "x"
               [ ((5 # 1, 4 # 1, 1 # 1)%Q, Responds, "a");
                 ((4 # 1, 6 # 1, 2 # 1)%Q, Fails "no gateway", "b");
                 ((6 # 1, 5 # 1, 3 # 1)%Q, Responds, "c") ])))
  = ["x"; "x_0"; "x_1"].
Proof.
  apply (same_name_spawns_are_numbered "x" init
           [ ((5 # 1, 4 # 1, 1 # 1)%Q, Responds, "a");
             ((4 # 1, 6 # 1, 2 # 1)%Q, Fails "no gateway", "b");
             ((6 # 1, 5 # 1, 3 # 1)%Q, Responds, "c") ]).
  - reflexivity.
  - simpl. intros [].
  - simpl. intros i [].
  - simpl. lia.
Defined.

(* ================================================================== *)
(** ** The flip request *)

(** C7.  A visibility update for [name] sends the gateway one request.  It
    holds exactly two rules: a subscriber rule for the channel
    [<namespace>/<name>/cmd_vel] and a publisher rule for the channel
    [<namespace>/<name>/pose], in this order, and its one [cancel] flag,
    which stands for both, is the flag given. *)
Theorem flip_request_has_the_two_rules
    (flip : answer) (name : string) (cancel : bool) (self : TurtleHerder) :
  exists request,
    flip_requests (snd (_send_flip_rules_request flip name cancel self))
    = [request] /\
    map gateway_msgs.rule (gateway_srvs.remotes request)
    = [ {| gateway_msgs.type := Some gateway_msgs.SUBSCRIBER;
           gateway_msgs.name := (namespace ++ "/" ++ name ++ "/cmd_vel")%string;
           gateway_msgs.node := "" |};
        {| gateway_msgs.type := Some gateway_msgs.PUBLISHER;
           gateway_msgs.name := (namespace ++ "/" ++ name ++ "/pose")%string;
           gateway_msgs.node := "" |} ] /\
    gateway_srvs.cancel request = cancel.
Proof.
  exists (flip_request name cancel).
  rewrite send_flip_rules_request_run. simpl.
  rewrite flip_requests_flip_log. auto.
Qed.

(** C10.  In every request [_send_flip_rules_request] sends for [name], the
    [gateway] field of each of its two remote rules is [name] itself. *)
Theorem flip_request_gateway_is_the_name
    (flip : answer) (name : string) (cancel : bool) (self : TurtleHerder) :
  Forall (fun request =>
            List.length (gateway_srvs.remotes request) = 2 /\
            Forall (fun remote_rule => gateway_msgs.gateway remote_rule = name)
                   (gateway_srvs.remotes request))
         (flip_requests (snd (_send_flip_rules_request flip name cancel self))).
Proof.
  rewrite send_flip_rules_request_run. simpl.
  rewrite flip_requests_flip_log.
  repeat constructor.
Qed.

(* ================================================================== *)
(** ** Order of reply, flip and release *)

(** C9.  A successful request (a spawn the backend served, a kill of a
    registered turtle the backend served) does, in this order: take its
    lock, call the backend, reply to the caller, send the flip request for
    the turtle (the name the spawn added to the registry, the name the kill
    asked for) with [cancel] false for a spawn and true for a kill, log the
    gateway's failure if any, release its lock.  That flip request is the
    only one of the handling. *)
Theorem reply_then_flip_then_release (self : TurtleHerder) (r : request) :
  locked (lock_of r) self = false ->
  successful self r = true ->
  let '(result, self', t) := handle r self in
  let name := turtle_of self' r in
  result = Normal tt /\
  t = [LockAcquire (lock_of r); backend_call_of r name;
       reply_of r name; GatewayFlip (flip_request name (cancel_of r))]
      ++ flip_log (flip_of r) ++ [LockRelease (lock_of r)] /\
  flip_requests t = [flip_request name (cancel_of r)] /\
  gateway_srvs.cancel (flip_request name (cancel_of r)) = cancel_of r /\
  locked (lock_of r) self' = false.
Proof.
  destruct r as [[[x y] theta] sc flip id msg|kc flip id msg];
    simpl; intros L S.
  - destruct sc; try discriminate.
    destruct (unique_name_total
                (concert_service_msgs.spawn_request_name msg) self)
      as (d & _ & _ & _ & U).
    rewrite (spawn_turtle_service_run _ Responds _ _ _ _ _ L U).
    cbn [turtle_of set_turtles turtles].
    rewrite last_last. cbn [fst snd].
    repeat split; try assumption.
    cbn [app]. rewrite !flip_requests_app, flip_requests_flip_log.
    reflexivity.
  - destruct kc; try discriminate. simpl in S.
    apply contains_In, list_remove_In in S as (l & R).
    rewrite (kill_turtle_service_run _ _ _ _ _ L). rewrite R.
    repeat split; try assumption.
    cbn [app]. rewrite !flip_requests_app, flip_requests_flip_log.
    reflexivity.
Qed.

Lemma reply_then_flip_then_release_witness :
  let '(result, self', t) :=
    handle (KillTurtle Responds (Fails "no gateway") "id"
              {| concert_service_msgs.kill_request_name := "bob" |})
           {| turtles := ["alice"; "bob"];
              _spawn_lock := false; _kill_lock := false |} in
  result = Normal tt /\
  t = [LockAcquire KillLock; kill_event "bob";
       ReplyKill "id" concert_service_msgs.KillTurtleResponse_;
       GatewayFlip (flip_request "bob" true);
       LogErr "TurtleHerder : failed to send flip rules [no gateway]";
       LockRelease KillLock] /\
  flip_requests t = [flip_request "bob" true] /\
  gateway_srvs.cancel (flip_request "bob" true) = true /\
  locked KillLock self' = false.
Proof.
  apply (reply_then_flip_then_release
           {| turtles := ["alice"; "bob"];
              _spawn_lock := false; _kill_lock := false |}
           (KillTurtle Responds (Fails "no gateway") "id"
              {| concert_service_msgs.kill_request_name := "bob" |})).
  - reflexivity.
  - reflexivity.
Defined.

(* ================================================================== *)
(** ** Shutdown *)

Lemma shutdown_for_run (kill_client : nat -> answer) (self : TurtleHerder)
    (names : list string) :
  forall k,
  exists n,
    n <= List.length names /\
    shutdown_for kill_client k names self
    = (Normal tt, self, map kill_event (firstn n names)) /\
    (forall i, S i < n -> kill_client (k + i) = Responds) /\
    (n < List.length names ->
     exists i, n = S i /\ kill_client (k + i) <> Responds).
Proof.
  induction names as [|name names IH]; intros k.
  - exists 0. repeat split; auto; simpl; intros; lia.
  - destruct (kill_client k) eqn:A.
    + destruct (IH (S k)) as (n & Hn & R & Hok & Hstop).
      exists (S n). repeat split.
      * simpl. lia.
      * simpl. unfold bind, try_except, service_call, emit, ret, bind.
        simpl. rewrite A. simpl. rewrite R. reflexivity.
      * intros [|i] Hi; [now rewrite Nat.add_0_r|].
        replace (k + S i) with (S k + i) by lia. apply Hok. lia.
      * simpl. intros Hlt.
        destruct Hstop as (i & -> & F); [lia|].
        exists (S i). split; [reflexivity|].
        now replace (k + S i) with (S k + i) by lia.
    + exists 1. repeat split.
      * simpl. lia.
      * simpl. unfold bind, try_except, service_call, emit, ret, raise, bind.
        simpl. rewrite A. reflexivity.
      * intros i Hi. lia.
      * intros _. exists 0. split; [reflexivity|].
        rewrite Nat.add_0_r, A. discriminate.
    + exists 1. repeat split.
      * simpl. lia.
      * simpl. unfold bind, try_except, service_call, emit, ret, raise, bind.
        simpl. rewrite A. reflexivity.
      * intros i Hi. lia.
      * intros _. exists 0. split; [reflexivity|].
        rewrite Nat.add_0_r, A. discriminate.
Qed.

(** C8.  [shutdown] calls the backend kill service for the first [n] names of
    the registry it starts with, in the registry's order, and does nothing
    else: it returns normally, logs nothing and leaves the object as it was.
    Every call but the last one was served, and when [n] is less than the
    number of names, the last call is one that failed: the loop goes on as
    long as the calls are served and ends with the first one that is not. *)
Theorem shutdown_kills_until_the_first_failure
    (kill_client : nat -> answer) (self : TurtleHerder) :
  exists n,
    n <= List.length (turtles self) /\
    shutdown kill_client self
    = (Normal tt, self, map kill_event (firstn n (turtles self))) /\
    (forall i, S i < n -> kill_client i = Responds) /\
    (n < List.length (turtles self) ->
     exists i, n = S i /\ kill_client i <> Responds).
Proof.
  destruct (shutdown_for_run kill_client self (turtles self) 0)
    as (n & Hn & R & Hok & Hstop).
  exists n. repeat split; auto.
  unfold shutdown, def, bind, gets. simpl. now rewrite R.
Qed.

(* ================================================================== *)
(** ** When the backend call fails *)

(** C2.  The spawn of ["bob"] on the empty registry, with the backend spawn
    service failing: the registry stays empty and the reply carries the
    empty name, and then the handler goes on to register flip rules for the
    empty name, with channels [/services/turtlesim//cmd_vel] and
    [/services/turtlesim//pose]. *)
Theorem failed_spawn_flips_the_empty_name :
  handle (SpawnTurtle (5 # 1, 4 # 1, 1 # 1)%Q (Fails "down") Responds "id"
            {| concert_service_msgs.spawn_request_name := "bob" |})
         init
  = (Normal tt, init,
     [LockAcquire SpawnLock;
      BackendSpawn {| turtlesim_srvs.x := (5 # 1)%Q;
                      turtlesim_srvs.y := (4 # 1)%Q;
                      turtlesim_srvs.theta := (1 # 1)%Q;
                      turtlesim_srvs.name := "bob" |};
      LogErr "TurtleHerder : failed to contact the internal spawn turtle service [down]";
      ReplySpawn "id" {| concert_service_msgs.name := "" |};
      GatewayFlip
        {| gateway_srvs.remotes :=
             [ {| gateway_msgs.gateway := "";
                  gateway_msgs.rule :=
                    {| gateway_msgs.type := Some gateway_msgs.SUBSCRIBER;
                       gateway_msgs.name := "/services/turtlesim//cmd_vel";
                       gateway_msgs.node := "" |} |};
               {| gateway_msgs.gateway := "";
                  gateway_msgs.rule :=
                    {| gateway_msgs.type := Some gateway_msgs.PUBLISHER;
                       gateway_msgs.name := "/services/turtlesim//pose";
                       gateway_msgs.node := "" |} |} ];
           gateway_srvs.cancel := false |};
      LockRelease SpawnLock]).
Proof. reflexivity. Qed.

(** C3, as stated, fails: with the registry [["bob"]], the kill of
    ["carol"] whose backend call fails leaves the registry as it was but
    does send a request to the gateway. *)
Lemma failed_kill_still_calls_the_gateway :
  let self := {| turtles := ["bob"];
                 _spawn_lock := false; _kill_lock := false |} in
  let r := KillTurtle (Fails "down") Responds "id"
             {| concert_service_msgs.kill_request_name := "carol" |} in
  ~ (turtles (fst (step self r)) = turtles self /\
     no_visibility_call (snd (step self r))).
Proof.
  simpl. unfold no_visibility_call. intros [_ H]. discriminate H.
Qed.

(** C3, amended.  A kill whose backend call fails with a communication
    error leaves the registry (and the whole object) as it was; the handler
    logs the error, still replies to the caller and then sends the gateway
    one request, the cancellation of the flip rules of the requested name,
    before it releases its lock. *)
Theorem failed_kill_keeps_registry_and_cancels_flips
    (e : string) (flip : answer) (request_id : UniqueID)
    (msg : concert_service_msgs.KillTurtleRequest) (self : TurtleHerder) :
  _kill_lock self = false ->
  let name := concert_service_msgs.kill_request_name msg in
  let '(result, self', t) :=
    handle (KillTurtle (Fails e) flip request_id msg) self in
  result = Normal tt /\
  self' = self /\
  t = [LockAcquire KillLock; kill_event name;
       LogErr "Turtle Herder : failed to contact the internal kill turtle service";
       ReplyKill request_id concert_service_msgs.KillTurtleResponse_;
       GatewayFlip (flip_request name true)]
      ++ flip_log flip ++ [LockRelease KillLock] /\
  flip_requests t = [flip_request name true].
Proof.
  intros L. simpl.
  rewrite (kill_turtle_service_run _ _ _ _ _ L).
  repeat split.
  cbn [app]. rewrite !flip_requests_app, flip_requests_flip_log.
  reflexivity.
Qed.

Lemma failed_kill_keeps_registry_and_cancels_flips_witness :
  let '(result, self', t) :=
    handle (KillTurtle (Fails "down") Interrupted "id"
              {| concert_service_msgs.kill_request_name := "bob" |})
           {| turtles := ["bob"]; _spawn_lock := false; _kill_lock := false |}
  in
  result = Normal tt /\
  self' = {| turtles := ["bob"]; _spawn_lock := false; _kill_lock := false |} /\
  t = [LockAcquire KillLock; kill_event "bob";
       LogErr "Turtle Herder : failed to contact the internal kill turtle service";
       ReplyKill "id" concert_service_msgs.KillTurtleResponse_;
       GatewayFlip (flip_request "bob" true);
       LogInfo "TurtleHerder : shutdown while contacting the gateway flip service";
       LockRelease KillLock] /\
  flip_requests t = [flip_request "bob" true].
Proof.
  apply (failed_kill_keeps_registry_and_cancels_flips
           "down" Interrupted "id"
           {| concert_service_msgs.kill_request_name := "bob" |}
           {| turtles := ["bob"]; _spawn_lock := false; _kill_lock := false |}).
  reflexivity.
Defined.

(* ================================================================== *)
(** ** Kill of a name that is not registered *)

(** C4.  With the registry [["bob"]], the kill of ["carol"] that the backend
    serves: [turtles.remove] raises [ValueError], which no clause catches;
    the handler ends there, with the kill lock still held and nothing
    replied.  The next kill waits for the lock and never gets it. *)
Theorem kill_of_unregistered_name_keeps_the_lock :
  let self := {| turtles := ["bob"];
                 _spawn_lock := false; _kill_lock := false |} in
  let held := {| turtles := ["bob"];
                 _spawn_lock := false; _kill_lock := true |} in
  handle (KillTurtle Responds Responds "id"
            {| concert_service_msgs.kill_request_name := "carol" |})
         self
  = (Raised ValueError, held, [LockAcquire KillLock; kill_event "carol"])
  /\
  handle (KillTurtle Responds Responds "id2"
            {| concert_service_msgs.kill_request_name := "bob" |})
         held
  = (Waiting KillLock, held, []).
Proof. split; reflexivity. Qed.

(** C5, as stated, fails: with the empty registry, the kill of ["ghost"]
    whose backend call fails sends the gateway a request. *)
Lemma unregistered_kill_calls_the_gateway :
  let r := KillTurtle (Fails "no such turtle") Responds "id"
             {| concert_service_msgs.kill_request_name := "ghost" |} in
  ~ In "ghost" (turtles init) /\
  ~ (turtles (fst (step init r)) = turtles init /\
     no_visibility_call (snd (step init r))).
Proof.
  simpl. split; [intros [] |].
  unfold no_visibility_call. intros [_ H]. discriminate H.
Qed.

(** C5, amended.  A kill of a name that is not in the registry leaves the
    registry as it was, whatever the backend answers.  It sends nothing to
    the gateway when the backend serves the call or the call is
    interrupted; when the backend call fails with a communication error it
    sends the gateway one request, the cancellation of the flip rules of
    that name. *)
Theorem unregistered_kill_keeps_registry
    (kill_client flip : answer) (request_id : UniqueID)
    (msg : concert_service_msgs.KillTurtleRequest) (self : TurtleHerder) :
  _kill_lock self = false ->
  let name := concert_service_msgs.kill_request_name msg in
  ~ In name (turtles self) ->
  let '(self', t) := step self (KillTurtle kill_client flip request_id msg) in
  turtles self' = turtles self /\
  flip_requests t = match kill_client with
                    | Fails _ => [flip_request name true]
                    | Responds | Interrupted => []
                    end.
Proof.
  intros L name H. unfold step. simpl.
  rewrite (kill_turtle_service_run _ _ _ _ _ L).
  apply list_remove_None in H. subst name. cbv zeta.
  destruct kill_client.
  - rewrite H. split; reflexivity.
  - split; [reflexivity|].
    cbn [app]. rewrite !flip_requests_app, flip_requests_flip_log.
    reflexivity.
  - split; reflexivity.
Qed.

Lemma unregistered_kill_keeps_registry_witness :
  let '(self', t) :=
    step {| turtles := ["bob"]; _spawn_lock := false; _kill_lock := false |}
         (KillTurtle (Fails "no such turtle") Responds "id"
            {| concert_service_msgs.kill_request_name := "carol" |}) in
  turtles self' = ["bob"] /\
  flip_requests t = [flip_request "carol" true].
Proof.
  apply (unregistered_kill_keeps_registry
           (Fails "no such turtle") Responds "id"
           {| concert_service_msgs.kill_request_name := "carol" |}
           {| turtles := ["bob"]; _spawn_lock := false; _kill_lock := false |}).
  - reflexivity.
  - simpl. intros [E|[]]. discriminate E.
Defined.

(* ================================================================== *)
(** ** Further facts about the handlers *)

(** X11.  No handler loops forever: for every registry and every requested
    name the unique-name loop of a spawn leaves within its fuel, one test
    more than the registry has names. *)
Lemma handle_never_diverges (r : request) (self : TurtleHerder) :
  fst (fst (handle r self)) <> Diverged.
Proof.
  destruct r as [random sc flip id msg|kc flip id msg]; simpl.
  - destruct (_spawn_lock self) eqn:L.
    + rewrite spawn_turtle_service_blocked by assumption. discriminate.
    + destruct (unique_name_total
                  (concert_service_msgs.spawn_request_name msg) self)
        as (d & _ & _ & _ & U).
      rewrite (spawn_turtle_service_run _ _ _ _ _ _ _ L U).
      destruct sc; discriminate.
  - destruct (_kill_lock self) eqn:L.
    + rewrite kill_turtle_service_blocked by assumption. discriminate.
    + rewrite (kill_turtle_service_run _ _ _ _ _ L).
      destruct kc; try discriminate.
      destruct (list_remove _ _); discriminate.
Qed.

(** X9.  The spawn handler returns normally with its lock released, and the
    release is its last action, whatever the backend and the gateway
    answer. *)
Lemma spawn_releases_its_lock
    (random : draws) (spawn_client flip : answer) (request_id : UniqueID)
    (msg : concert_service_msgs.SpawnTurtleRequest) (self : TurtleHerder) :
  _spawn_lock self = false ->
  let '(result, self', t) :=
    _spawn_turtle_service random spawn_client flip request_id msg self in
  result = Normal tt /\ _spawn_lock self' = false /\
  last t (LockAcquire SpawnLock) = LockRelease SpawnLock.
Proof.
  intros L.
  destruct (unique_name_total
              (concert_service_msgs.spawn_request_name msg) self)
    as (d & _ & _ & _ & U).
  rewrite (spawn_turtle_service_run _ _ _ _ _ _ _ L U).
  destruct spawn_client, flip; simpl; auto.
Qed.

(** X10.  The kill handler ends with its lock held exactly when the backend
    served the kill of a name that is not registered. *)
Lemma kill_keeps_its_lock_iff
    (kill_client flip : answer) (request_id : UniqueID)
    (msg : concert_service_msgs.KillTurtleRequest) (self : TurtleHerder) :
  _kill_lock self = false ->
  _kill_lock
    (snd (fst (_kill_turtle_service kill_client flip request_id msg self)))
  = responded kill_client
    && negb (contains (concert_service_msgs.kill_request_name msg)
                      (turtles self)).
Proof.
  intros L. rewrite (kill_turtle_service_run _ _ _ _ _ L).
  destruct kill_client; simpl; try assumption.
  destruct (contains _ _) eqn:C.
  - apply contains_In, list_remove_In in C as (l & ->). simpl. assumption.
  - apply contains_not_In, list_remove_None in C. rewrite C. simpl.
    reflexivity.
Qed.

(** A requested name that already ends in a counter is kept whole: with
    ["x_0"] registered, asking for ["x_0"] again gives ["x_0_0"]. *)
Example spawn_of_a_numbered_name :
  spawn_replies
    (snd (step {| turtles := ["x"; "x_0"];
                  _spawn_lock := false; _kill_lock := false |}
               (SpawnTurtle (5 # 1, 4 # 1, 1 # 1)%Q Responds Responds "id"
                  {| concert_service_msgs.spawn_request_name := "x_0" |})))
  = ["x_0_0"].
Proof. reflexivity. Qed.

(** The scenarios of the registry: spawn on the empty registry, spawn of a
    taken name, kill of a registered name. *)
Example registry_scenarios :
  let spawn_bob :=
    SpawnTurtle (5 # 1, 4 # 1, 1 # 1)%Q Responds Responds "id"
      {| concert_service_msgs.spawn_request_name := "bob" |} in
  let kill_bob :=
    KillTurtle Responds Responds "id"
      {| concert_service_msgs.kill_request_name := "bob" |} in
  map turtles (fst (run init [spawn_bob; spawn_bob; kill_bob]))
  = [ []; ["bob"]; ["bob"; "bob_0"]; ["bob_0"] ].
Proof. reflexivity. Qed.

(* ================================================================== *)
(** ** One request: what the handlers do beyond the cases above *)

(** X1.  A request whose backend call is interrupted by the shutdown of the
    node is abandoned: the handler logs the shutdown and releases its lock
    at once; it replies nothing, sends nothing to the gateway and leaves the
    object as it was. *)
Theorem interrupted_request_is_abandoned (self : TurtleHerder) (r : request) :
  locked (lock_of r) self = false ->
  backend_of r = Interrupted ->
  let '(result, self', t) := handle r self in
  result = Normal tt /\ self' = self /\
  replies t = [] /\ flip_requests t = [] /\
  exists name text,
    t = [LockAcquire (lock_of r); backend_call_of r name;
         LogInfo text; LockRelease (lock_of r)].
Proof.
  destruct r as [[[x y] theta] sc flip id msg|kc flip id msg];
    simpl; intros L ->.
  - destruct (unique_name_total
                (concert_service_msgs.spawn_request_name msg) self)
      as (d & _ & _ & _ & U).
    rewrite (spawn_turtle_service_run _ _ _ _ _ _ _ L U).
    repeat split. do 2 eexists. reflexivity.
  - rewrite (kill_turtle_service_run _ _ _ _ _ L).
    repeat split. do 2 eexists. reflexivity.
Qed.

Lemma interrupted_request_is_abandoned_witness :
  let self := {| turtles := ["bob"];
                 _spawn_lock := false; _kill_lock := false |} in
  let '(result, self', t) :=
    handle (SpawnTurtle (5 # 1, 4 # 1, 1 # 1)%Q Interrupted Responds "id"
              {| concert_service_msgs.spawn_request_name := "bob" |})
           self in
  result = Normal tt /\ self' = self /\
  replies t = [] /\ flip_requests t = [] /\
  exists name text,
    t = [LockAcquire SpawnLock;
         BackendSpawn {| turtlesim_srvs.x := (5 # 1)%Q;
                         turtlesim_srvs.y := (4 # 1)%Q;
                         turtlesim_srvs.theta := (1 # 1)%Q;
                         turtlesim_srvs.name := name |};
         LogInfo text; LockRelease SpawnLock].
Proof.
  apply (interrupted_request_is_abandoned
           {| turtles := ["bob"]; _spawn_lock := false; _kill_lock := false |}
           (SpawnTurtle (5 # 1, 4 # 1, 1 # 1)%Q Interrupted Responds "id"
              {| concert_service_msgs.spawn_request_name := "bob" |}));
    reflexivity.
Defined.

(** X2.  The registry changes only when the backend serves the call: a
    request whose backend call fails or is interrupted leaves [turtles] as it
    was, whether or not the handler got its lock. *)
Theorem registry_changes_only_when_served (self : TurtleHerder) (r : request) :
  responded (backend_of r) = false ->
  turtles (fst (step self r)) = turtles self.
Proof.
  unfold step.
  destruct r as [random sc flip id msg|kc flip id msg]; simpl; intros R.
  - destruct (_spawn_lock self) eqn:L.
    + now rewrite spawn_turtle_service_blocked.
    + destruct (unique_name_total
                  (concert_service_msgs.spawn_request_name msg) self)
        as (d & _ & _ & _ & U).
      rewrite (spawn_turtle_service_run _ _ _ _ _ _ _ L U).
      destruct sc; [discriminate | reflexivity | reflexivity].
  - destruct (_kill_lock self) eqn:L.
    + now rewrite kill_turtle_service_blocked.
    + rewrite (kill_turtle_service_run _ _ _ _ _ L).
      destruct kc; [discriminate | reflexivity | reflexivity].
Qed.

Lemma registry_changes_only_when_served_witness :
  turtles
    (fst (step {| turtles := ["bob"];
                  _spawn_lock := false; _kill_lock := false |}
               (KillTurtle (Fails "down") Responds "id"
                  {| concert_service_msgs.kill_request_name := "bob" |})))
  = ["bob"].
Proof.
  apply (registry_changes_only_when_served
           {| turtles := ["bob"]; _spawn_lock := false; _kill_lock := false |}
           (KillTurtle (Fails "down") Responds "id"
              {| concert_service_msgs.kill_request_name := "bob" |})).
  reflexivity.
Defined.

(** X3.  The name a served spawn gets is the first free candidate among
    the requested name, name_0, name_1, ...: every earlier candidate is
    registered, the chosen one is not, and its position is at most the
    number of registered names.  That name goes to the backend, to the end
    of the registry and into the reply. *)
Theorem served_spawn_takes_the_first_free_name
    (random : draws) (flip : answer) (request_id : UniqueID)
    (msg : concert_service_msgs.SpawnTurtleRequest) (self : TurtleHerder) :
  _spawn_lock self = false ->
  let requested := concert_service_msgs.spawn_request_name msg in
  exists i,
    i <= List.length (turtles self) /\
    (forall k, k < i ->
               In (requested ++ name_extension_at k)%string (turtles self)) /\
    ~ In (requested ++ name_extension_at i)%string (turtles self) /\
    let name := (requested ++ name_extension_at i)%string in
    let '(self', t) :=
      step self (SpawnTurtle random Responds flip request_id msg) in
    turtles self' = turtles self ++ [name] /\
    spawn_replies t = [name] /\
    In (backend_call_of (SpawnTurtle random Responds flip request_id msg) name)
       t.
Proof.
  intros L requested.
  destruct (unique_name_total requested self) as (d & Hd & Hin & Hout & U).
  exists d. repeat split; try assumption.
  unfold step. simpl.
  rewrite (spawn_turtle_service_run _ _ _ _ _ _ _ L U).
  destruct random as [[x y] theta]. simpl.
  repeat split.
  - now rewrite spawn_replies_app, spawn_replies_flip_log.
  - right. now left.
Qed.

Lemma served_spawn_takes_the_first_free_name_witness :
  exists i,
    i <= 3 /\
    (forall k, k < i ->
               In ("x" ++ name_extension_at k)%string ["x"; "x_1"; "x_0"]) /\
    ~ In ("x" ++ name_extension_at i)%string ["x"; "x_1"; "x_0"] /\
    let name := ("x" ++ name_extension_at i)%string in
    let '(self', t) :=
      step {| turtles := ["x"; "x_1"; "x_0"];
              _spawn_lock := false; _kill_lock := false |}
           (SpawnTurtle (5 # 1, 4 # 1, 1 # 1)%Q Responds Responds "id"
              {| concert_service_msgs.spawn_request_name := "x" |}) in
    turtles self' = ["x"; "x_1"; "x_0"] ++ [name] /\
    spawn_replies t = [name] /\
    In (BackendSpawn {| turtlesim_srvs.x := (5 # 1)%Q;
                        turtlesim_srvs.y := (4 # 1)%Q;
                        turtlesim_srvs.theta := (1 # 1)%Q;
                        turtlesim_srvs.name := name |}) t.
Proof.
  apply (served_spawn_takes_the_first_free_name
           (5 # 1, 4 # 1, 1 # 1)%Q Responds "id"
           {| concert_service_msgs.spawn_request_name := "x" |}
           {| turtles := ["x"; "x_1"; "x_0"];
              _spawn_lock := false; _kill_lock := false |}).
  reflexivity.
Defined.

Lemma list_remove_split (x : string) (l l' : list string) :
  list_remove x l = Some l' ->
  exists a b, l = a ++ x :: b /\ ~ In x a /\ l' = a ++ b.
Proof.
  revert l'. induction l as [|y l IH]; simpl; intros l' H.
  - discriminate.
  - destruct (String.eqb_spec y x) as [->|N].
    + injection H as <-. exists [], l. simpl. tauto.
    + destruct (list_remove x l) as [r|]; simpl in H; [|discriminate].
      injection H as <-.
      destruct (IH r eq_refl) as (a & b & -> & Ha & ->).
      exists (y :: a), b. simpl. repeat split; try reflexivity.
      intros [E|E]; [congruence | tauto].
Qed.

Lemma list_remove_snoc (x : string) (l : list string) :
  ~ In x l -> list_remove x (l ++ [x]) = Some l.
Proof.
  induction l as [|y l IH]; simpl; intros H.
  - now rewrite String.eqb_refl.
  - destruct (String.eqb_spec y x) as [->|N]; [tauto|].
    rewrite IH by tauto. reflexivity.
Qed.

(** X4.  A served kill of a registered name takes its first occurrence out
    of the registry and keeps the other names in their order; when the
    registry held no name twice, the name is gone afterwards. *)
Theorem served_kill_removes_first_occurrence
    (flip : answer) (request_id : UniqueID)
    (msg : concert_service_msgs.KillTurtleRequest) (self : TurtleHerder) :
  _kill_lock self = false ->
  let name := concert_service_msgs.kill_request_name msg in
  In name (turtles self) ->
  exists before after,
    turtles self = before ++ name :: after /\
    ~ In name before /\
    turtles (fst (step self (KillTurtle Responds flip request_id msg)))
    = before ++ after /\
    (NoDup (turtles self) -> ~ In name (before ++ after)).
Proof.
  intros L name H.
  destruct (list_remove_In _ _ H) as (l & R).
  destruct (list_remove_split _ _ _ R) as (a & b & E & Ha & ->).
  exists a, b. repeat split; try assumption.
  - unfold step. simpl.
    rewrite (kill_turtle_service_run _ _ _ _ _ L). fold name.
    now rewrite R.
  - rewrite E. intros N. apply NoDup_remove_2 in N. exact N.
Qed.

Lemma served_kill_removes_first_occurrence_witness :
  exists before after,
    ["alice"; "bob"; "carol"] = before ++ "bob" :: after /\
    ~ In "bob" before /\
    turtles
      (fst (step {| turtles := ["alice"; "bob"; "carol"];
                    _spawn_lock := false; _kill_lock := false |}
                 (KillTurtle Responds Responds "id"
                    {| concert_service_msgs.kill_request_name := "bob" |})))
    = before ++ after /\
    (NoDup ["alice"; "bob"; "carol"] -> ~ In "bob" (before ++ after)).
Proof.
  apply (served_kill_removes_first_occurrence Responds "id"
           {| concert_service_msgs.kill_request_name := "bob" |}
           {| turtles := ["alice"; "bob"; "carol"];
              _spawn_lock := false; _kill_lock := false |}).
  - reflexivity.
  - simpl. auto.
Defined.

(** X5.  Spawn and kill undo each other: after a served spawn, a served
    kill of the name that was replied brings the object back to where it
    was, and the gateway has been sent the registration and then the
    cancellation of the same two rules. *)
Theorem spawn_then_kill_restores_the_registry
    (random : draws) (flip flip' : answer) (request_id request_id' : UniqueID)
    (msg : concert_service_msgs.SpawnTurtleRequest) (self : TurtleHerder) :
  _spawn_lock self = false ->
  _kill_lock self = false ->
  let spawn := SpawnTurtle random Responds flip request_id msg in
  exists name,
    spawn_replies (snd (step self spawn)) = [name] /\
    let kill :=
      KillTurtle Responds flip' request_id'
        {| concert_service_msgs.kill_request_name := name |} in
    fst (step (fst (step self spawn)) kill) = self /\
    flip_requests (snd (step self spawn)
                   ++ snd (step (fst (step self spawn)) kill))
    = [flip_request name false; flip_request name true] /\
    gateway_srvs.remotes (flip_request name true)
    = gateway_srvs.remotes (flip_request name false).
Proof.
  intros Ls Lk spawn.
  destruct (unique_name_total
              (concert_service_msgs.spawn_request_name msg) self)
    as (d & _ & _ & Hout & U).
  set (name := (concert_service_msgs.spawn_request_name msg
                ++ name_extension_at d)%string) in *.
  exists name. unfold spawn, step. simpl.
  rewrite (spawn_turtle_service_run _ _ _ _ _ _ _ Ls U).
  cbn [fst snd].
  assert (Lk' : _kill_lock (set_turtles (turtles self ++ [name]) self) = false)
    by exact Lk.
  rewrite (kill_turtle_service_run Responds flip' request_id'
             {| concert_service_msgs.kill_request_name := name |} _ Lk').
  cbn [concert_service_msgs.kill_request_name set_turtles turtles].
  rewrite (list_remove_snoc name (turtles self) Hout).
  cbn [fst snd]. repeat split.
  - cbn [app]. now rewrite !spawn_replies_app, spawn_replies_flip_log.
  - destruct self. reflexivity.
  - repeat first [ rewrite flip_requests_app
                 | rewrite flip_requests_flip_log
                 | progress simpl ].
    reflexivity.
Qed.

Lemma spawn_then_kill_restores_the_registry_witness :
  let self := {| turtles := ["bob"];
                 _spawn_lock := false; _kill_lock := false |} in
  let spawn :=
    SpawnTurtle (5 # 1, 4 # 1, 1 # 1)%Q Responds Responds "a"
      {| concert_service_msgs.spawn_request_name := "bob" |} in
  exists name,
    spawn_replies (snd (step self spawn)) = [name] /\
    let kill :=
      KillTurtle Responds (Fails "no gateway") "b"
        {| concert_service_msgs.kill_request_name := name |} in
    fst (step (fst (step self spawn)) kill) = self /\
    flip_requests (snd (step self spawn)
                   ++ snd (step (fst (step self spawn)) kill))
    = [flip_request name false; flip_request name true] /\
    gateway_srvs.remotes (flip_request name true)
    = gateway_srvs.remotes (flip_request name false).
Proof.
  apply (spawn_then_kill_restores_the_registry
           (5 # 1, 4 # 1, 1 # 1)%Q Responds (Fails "no gateway") "a" "b"
           {| concert_service_msgs.spawn_request_name := "bob" |}
           {| turtles := ["bob"]; _spawn_lock := false; _kill_lock := false |});
    reflexivity.
Defined.

(** X6.  A killed name is free again: on a registry without repeated names,
    after a served kill of a registered name, a served spawn that asks for
    this name gets it back unchanged. *)
Theorem killed_name_is_free_again
    (random : draws) (flip flip' : answer) (request_id request_id' : UniqueID)
    (name : string) (self : TurtleHerder) :
  _spawn_lock self = false ->
  _kill_lock self = false ->
  NoDup (turtles self) ->
  In name (turtles self) ->
  let kill :=
    KillTurtle Responds flip request_id
      {| concert_service_msgs.kill_request_name := name |} in
  let spawn :=
    SpawnTurtle random Responds flip' request_id'
      {| concert_service_msgs.spawn_request_name := name |} in
  spawn_replies (snd (step (fst (step self kill)) spawn)) = [name].
Proof.
  intros Ls Lk N H kill spawn.
  destruct (list_remove_In _ _ H) as (l & R).
  destruct (list_remove_split _ _ _ R) as (a & b & E & _ & ->).
  assert (Free : ~ In name (a ++ b)).
  { rewrite E in N. now apply NoDup_remove_2 in N. }
  unfold kill, spawn, step. simpl.
  rewrite (kill_turtle_service_run _ _ _ _ _ Lk). simpl. rewrite R.
  cbn [fst].
  assert (Ls' : _spawn_lock (set_turtles (a ++ b) self) = false) by exact Ls.
  pose proof (unique_name_free name (set_turtles (a ++ b) self) Free) as U.
  rewrite (spawn_turtle_service_run random Responds flip' request_id'
             {| concert_service_msgs.spawn_request_name := name |} _ _ Ls' U).
  cbn [snd app].
  now rewrite !spawn_replies_app, spawn_replies_flip_log.
Qed.

Lemma killed_name_is_free_again_witness :
  let self := {| turtles := ["bob"; "bob_0"];
                 _spawn_lock := false; _kill_lock := false |} in
  let kill :=
    KillTurtle Responds Responds "a"
      {| concert_service_msgs.kill_request_name := "bob" |} in
  let spawn :=
    SpawnTurtle (5 # 1, 4 # 1, 1 # 1)%Q Responds Responds "b"
      {| concert_service_msgs.spawn_request_name := "bob" |} in
  spawn_replies (snd (step (fst (step self kill)) spawn)) = ["bob"].
Proof.
  apply (killed_name_is_free_again
           (5 # 1, 4 # 1, 1 # 1)%Q Responds Responds "a" "b" "bob"
           {| turtles := ["bob"; "bob_0"];
              _spawn_lock := false; _kill_lock := false |}).
  - reflexivity.
  - reflexivity.
  - simpl. repeat constructor; simpl; intuition discriminate.
  - simpl. auto.
Defined.

Lemma actions_app (t t' : list event) :
  actions (t ++ t') = actions t ++ actions t'.
Proof. apply filter_app. Qed.

Lemma actions_flip_log (flip : answer) : actions (flip_log flip) = [].
Proof. destruct flip; reflexivity. Qed.

(** X7.  The gateway's answer changes nothing but the log: under two
    different answers of the gateway, a request ends the same way, leaves
    the same object and performs the same actions in the same order. *)
Theorem gateway_answer_only_changes_the_log
    (flip flip' : answer) (self : TurtleHerder) (r : request) :
  let '(result, self1, t) := handle (with_flip flip r) self in
  let '(result', self1', t') := handle (with_flip flip' r) self in
  result = result' /\ self1 = self1' /\ actions t = actions t'.
Proof.
  destruct r as [random sc f id msg|kc f id msg]; simpl.
  - destruct (_spawn_lock self) eqn:L.
    + rewrite !spawn_turtle_service_blocked by assumption. auto.
    + destruct (unique_name_total
                  (concert_service_msgs.spawn_request_name msg) self)
        as (d & _ & _ & _ & U).
      rewrite !(spawn_turtle_service_run _ _ _ _ _ _ _ L U).
      destruct sc; repeat split;
        repeat first [ rewrite actions_app | rewrite actions_flip_log ];
        reflexivity.
  - destruct (_kill_lock self) eqn:L.
    + rewrite !kill_turtle_service_blocked by assumption. auto.
    + rewrite !(kill_turtle_service_run _ _ _ _ _ L).
      destruct kc; try destruct (list_remove _ _); repeat split;
        repeat first [ rewrite actions_app | rewrite actions_flip_log ];
        reflexivity.
Qed.

(** X8.  The empty name in a spawn reply does not tell a failure from a
    success: a spawn that is not interrupted is replied the empty name
    exactly when the backend call failed, or when the empty name was
    requested and is free (and is then registered). *)
Theorem spawn_reply_is_empty_iff
    (random : draws) (spawn_client flip : answer) (request_id : UniqueID)
    (msg : concert_service_msgs.SpawnTurtleRequest) (self : TurtleHerder) :
  _spawn_lock self = false ->
  spawn_client <> Interrupted ->
  let '(self', t) :=
    step self (SpawnTurtle random spawn_client flip request_id msg) in
  spawn_replies t = [""] <->
  (responded spawn_client = false /\ turtles self' = turtles self) \/
  (responded spawn_client = true /\
   concert_service_msgs.spawn_request_name msg = "" /\
   ~ In "" (turtles self) /\
   turtles self' = turtles self ++ [""]).
Proof.
  intros L I. unfold step. simpl.
  destruct (unique_name_total
              (concert_service_msgs.spawn_request_name msg) self)
    as (d & _ & _ & Hout & U).
  rewrite (spawn_turtle_service_run _ _ _ _ _ _ _ L U).
  destruct spawn_client; [| |congruence]; cbn [fst snd app];
    rewrite !spawn_replies_app, spawn_replies_flip_log; simpl.
  - split.
    + intros E. injection E as E. right.
      destruct (concert_service_msgs.spawn_request_name msg) eqn:Q;
        [|discriminate].
      destruct d; [|discriminate]. simpl in *. auto.
    + intros [[F _]|(_ & Q & Free & T)]; [discriminate|].
      apply app_inv_head in T. congruence.
  - split; auto.
Qed.

Lemma spawn_reply_is_empty_iff_witness :
  let '(self', t) :=
    step {| turtles := ["bob"]; _spawn_lock := false; _kill_lock := false |}
         (SpawnTurtle (5 # 1, 4 # 1, 1 # 1)%Q Responds Responds "id"
            {| concert_service_msgs.spawn_request_name := "" |}) in
  spawn_replies t = [""] <->
  (true = false /\ turtles self' = ["bob"]) \/
  (true = true /\ "" = "" /\ ~ In "" ["bob"] /\
   turtles self' = ["bob"] ++ [""]).
Proof.
  apply (spawn_reply_is_empty_iff
           (5 # 1, 4 # 1, 1 # 1)%Q Responds Responds "id"
           {| concert_service_msgs.spawn_request_name := "" |}
           {| turtles := ["bob"]; _spawn_lock := false; _kill_lock := false |}).
  - reflexivity.
  - discriminate.
Defined.

Lemma spawn_releases_its_lock_witness :
  let '(result, self', t) :=
    _spawn_turtle_service (5 # 1, 4 # 1, 1 # 1)%Q (Fails "down") Interrupted
      "id" {| concert_service_msgs.spawn_request_name := "bob" |}
      {| turtles := ["bob"]; _spawn_lock := false; _kill_lock := true |} in
  result = Normal tt /\ _spawn_lock self' = false /\
  last t (LockAcquire SpawnLock) = LockRelease SpawnLock.
Proof.
  apply (spawn_releases_its_lock
           (5 # 1, 4 # 1, 1 # 1)%Q (Fails "down") Interrupted "id"
           {| concert_service_msgs.spawn_request_name := "bob" |}
           {| turtles := ["bob"]; _spawn_lock := false; _kill_lock := true |}).
  reflexivity.
Defined.

Lemma kill_keeps_its_lock_iff_witness :
  _kill_lock
    (snd (fst (_kill_turtle_service Responds Responds "id"
                 {| concert_service_msgs.kill_request_name := "turtle1" |}
                 init)))
  = true.
Proof.
  apply (kill_keeps_its_lock_iff Responds Responds "id"
           {| concert_service_msgs.kill_request_name := "turtle1" |} init).
  reflexivity.
Defined.

(* ================================================================== *)
(** ** Runs of requests *)

Lemma run_cons (self : TurtleHerder) (r : request) (rs : list request) :
  run self (r :: rs)
  = (self :: fst (run (fst (step self r)) rs),
     snd (step self r) ++ snd (run (fst (step self r)) rs)).
Proof.
  simpl. destruct (step self r) as [self' t]. cbn [fst snd].
  destruct (run self' rs) as [states t']. reflexivity.
Qed.

(** What one request can do to the locks and the registry, and which of its
    actions concern the kill side. *)
Lemma step_spawn_lock (self : TurtleHerder) (r : request) :
  _spawn_lock (fst (step self r)) = _spawn_lock self.
Proof.
  unfold step.
  destruct r as [random sc flip id msg|kc flip id msg]; simpl.
  - destruct (_spawn_lock self) eqn:L.
    + now rewrite spawn_turtle_service_blocked.
    + destruct (unique_name_total
                  (concert_service_msgs.spawn_request_name msg) self)
        as (d & _ & _ & _ & U).
      rewrite (spawn_turtle_service_run _ _ _ _ _ _ _ L U).
      destruct sc; simpl; assumption.
  - destruct (_kill_lock self) eqn:L.
    + now rewrite kill_turtle_service_blocked.
    + rewrite (kill_turtle_service_run _ _ _ _ _ L).
      destruct kc; try destruct (list_remove _ _); simpl; reflexivity.
Qed.

Lemma step_kill_lock_held (self : TurtleHerder) (r : request) :
  _kill_lock self = true ->
  _kill_lock (fst (step self r)) = true /\
  incl (turtles self) (turtles (fst (step self r))) /\
  kill_calls (snd (step self r)) = [] /\
  filter is_reply (snd (step self r))
  = filter (fun e => match e with ReplySpawn _ _ => true | _ => false end)
           (snd (step self r)).
Proof.
  intros K. unfold step.
  destruct r as [random sc flip id msg|kc flip id msg]; simpl.
  - destruct (_spawn_lock self) eqn:L.
    + rewrite spawn_turtle_service_blocked by assumption.
      simpl. auto using incl_refl.
    + destruct (unique_name_total
                  (concert_service_msgs.spawn_request_name msg) self)
        as (d & _ & _ & _ & U).
      rewrite (spawn_turtle_service_run _ _ _ _ _ _ _ L U).
      destruct sc, flip; simpl;
        auto using incl_refl, incl_appl.
  - rewrite kill_turtle_service_blocked by assumption.
    simpl. auto using incl_refl.
Qed.

(** X12.  Once a handler has ended with the kill lock held, kills are dead
    for good: in every later state the lock is still held and every name of
    the registry is still there, and no later request reaches the backend
    kill service or gets a kill reply. *)
Theorem held_kill_lock_stops_all_kills
    (self : TurtleHerder) (rs : list request) :
  _kill_lock self = true ->
  Forall (fun self' => _kill_lock self' = true /\
                       incl (turtles self) (turtles self'))
         (fst (run self rs)) /\
  kill_calls (snd (run self rs)) = [] /\
  Forall (fun e => match e with ReplyKill _ _ => False | _ => True end)
         (snd (run self rs)).
Proof.
  revert self. induction rs as [|r rs IH]; intros self K.
  - simpl. repeat split; auto using incl_refl.
  - rewrite run_cons. cbn [fst snd].
    destruct (step_kill_lock_held self r K) as (K' & I & C & R).
    destruct (IH _ K') as (F & C' & R').
    repeat split.
    + constructor; [auto using incl_refl|].
      eapply Forall_impl; [|exact F].
      intros s [Ks Is]. split; [assumption|].
      eapply incl_tran; eassumption.
    + unfold kill_calls in *. now rewrite flat_map_app, C, C'.
    + apply Forall_app. split; [|assumption].
      apply Forall_forall. intros e He.
      destruct e; auto.
      assert (Hf : In (ReplyKill request_id response)
                      (filter is_reply (snd (step self r)))).
      { apply filter_In. auto. }
      rewrite R in Hf. apply filter_In in Hf as [_ Hf]. discriminate.
Qed.

Lemma held_kill_lock_stops_all_kills_witness :
  let self := {| turtles := ["bob"];
                 _spawn_lock := false; _kill_lock := true |} in
  let rs :=
    [ KillTurtle Responds Responds "a"
        {| concert_service_msgs.kill_request_name := "bob" |};
      SpawnTurtle (5 # 1, 4 # 1, 1 # 1)%Q Responds Responds "b"
        {| concert_service_msgs.spawn_request_name := "bob" |} ] in
  Forall (fun self' => _kill_lock self' = true /\
                       incl (turtles self) (turtles self'))
         (fst (run self rs)) /\
  kill_calls (snd (run self rs)) = [] /\
  Forall (fun e => match e with ReplyKill _ _ => False | _ => True end)
         (snd (run self rs)).
Proof.
  apply (held_kill_lock_stops_all_kills
           {| turtles := ["bob"]; _spawn_lock := false; _kill_lock := true |}
           [ KillTurtle Responds Responds "a"
               {| concert_service_msgs.kill_request_name := "bob" |};
             SpawnTurtle (5 # 1, 4 # 1, 1 # 1)%Q Responds Responds "b"
               {| concert_service_msgs.spawn_request_name := "bob" |} ]).
  reflexivity.
Defined.

Lemma run_spawn_lock (rs : list request) :
  forall self,
    _spawn_lock self = false ->
    Forall (fun self' => _spawn_lock self' = false) (fst (run self rs)).
Proof.
  induction rs as [|r rs IH]; intros self L.
  - simpl. auto.
  - rewrite run_cons. cbn [fst]. constructor; [assumption|].
    apply IH. now rewrite step_spawn_lock.
Qed.

Lemma step_spawn_replies (self : TurtleHerder) (r : request) :
  _spawn_lock self = false ->
  List.length (spawn_replies (snd (step self r)))
  = if answered_spawn r then 1 else 0.
Proof.
  intros L. unfold step.
  destruct r as [random sc flip id msg|kc flip id msg]; simpl.
  - destruct (unique_name_total
                (concert_service_msgs.spawn_request_name msg) self)
      as (d & _ & _ & _ & U).
    rewrite (spawn_turtle_service_run _ _ _ _ _ _ _ L U).
    destruct sc, flip; reflexivity.
  - destruct (_kill_lock self) eqn:K.
    + now rewrite kill_turtle_service_blocked.
    + rewrite (kill_turtle_service_run _ _ _ _ _ K).
      destruct kc, flip; try destruct (list_remove _ _); reflexivity.
Qed.

(** X13.  Spawns are never held up: when the spawn lock is free at the
    start, it is free again after every request, and every spawn request
    whose backend call is not interrupted gets its reply, whatever kills run
    in between and even when the kill lock has been left held. *)
Theorem every_spawn_is_replied (self : TurtleHerder) (rs : list request) :
  _spawn_lock self = false ->
  Forall (fun self' => _spawn_lock self' = false) (fst (run self rs)) /\
  List.length (spawn_replies (snd (run self rs)))
  = List.length (filter answered_spawn rs).
Proof.
  intros L. split; [now apply run_spawn_lock|].
  revert self L. induction rs as [|r rs IH]; intros self L.
  - reflexivity.
  - rewrite run_cons. cbn [snd].
    rewrite spawn_replies_app, length_app, (step_spawn_replies self r L).
    rewrite IH by now rewrite step_spawn_lock.
    simpl. destruct (answered_spawn r); reflexivity.
Qed.

Lemma every_spawn_is_replied_witness :
  let held := {| turtles := ["bob"];
                 _spawn_lock := false; _kill_lock := true |} in
  let rs :=
    [ SpawnTurtle (5 # 1, 4 # 1, 1 # 1)%Q Responds Responds "a"
        {| concert_service_msgs.spawn_request_name := "bob" |};
      KillTurtle Responds Responds "b"
        {| concert_service_msgs.kill_request_name := "bob" |};
      SpawnTurtle (5 # 1, 4 # 1, 1 # 1)%Q (Fails "down") Responds "c"
        {| concert_service_msgs.spawn_request_name := "bob" |};
      SpawnTurtle (5 # 1, 4 # 1, 1 # 1)%Q Interrupted Responds "d"
        {| concert_service_msgs.spawn_request_name := "bob" |} ] in
  Forall (fun self' => _spawn_lock self' = false) (fst (run held rs)) /\
  List.length (spawn_replies (snd (run held rs))) = 2.
Proof.
  apply (every_spawn_is_replied
           {| turtles := ["bob"]; _spawn_lock := false; _kill_lock := true |}
           [ SpawnTurtle (5 # 1, 4 # 1, 1 # 1)%Q Responds Responds "a"
               {| concert_service_msgs.spawn_request_name := "bob" |};
             KillTurtle Responds Responds "b"
               {| concert_service_msgs.kill_request_name := "bob" |};
             SpawnTurtle (5 # 1, 4 # 1, 1 # 1)%Q (Fails "down") Responds "c"
               {| concert_service_msgs.spawn_request_name := "bob" |};
             SpawnTurtle (5 # 1, 4 # 1, 1 # 1)%Q Interrupted Responds "d"
               {| concert_service_msgs.spawn_request_name := "bob" |} ]).
  reflexivity.
Defined.

Lemma replies_app (t t' : list event) :
  replies (t ++ t') = replies t ++ replies t'.
Proof. apply filter_app. Qed.

Lemma replies_flip_log (flip : answer) : replies (flip_log flip) = [].
Proof. destruct flip; reflexivity. Qed.

Lemma kill_calls_app (t t' : list event) :
  kill_calls (t ++ t') = kill_calls t ++ kill_calls t'.
Proof. apply flat_map_app. Qed.

Lemma kill_calls_flip_log (flip : answer) : kill_calls (flip_log flip) = [].
Proof. destruct flip; reflexivity. Qed.

(** The trace of one request, in the four shapes it can take: nothing (the
    lock is held), a backend call that is interrupted or ends in an uncaught
    exception, and a backend call followed by reply and flip request. *)
Lemma step_trace_shape (self : TurtleHerder) (r : request) :
  let t := snd (step self r) in
  (flip_requests t = [] /\ replies t = [] /\ spawn_replies t = [] /\
   turtles (fst (step self r)) = turtles self) \/
  (exists name,
     flip_requests t = [flip_request name (cancel_of r)] /\
     replies t = [reply_of r name] /\
     (cancel_of r = false ->
      spawn_replies t = [name] /\
      incl (turtles (fst (step self r))) (turtles self ++ [name])) /\
     (cancel_of r = true ->
      spawn_replies t = [] /\ kill_calls t = [name] /\
      incl (turtles (fst (step self r))) (turtles self))).
Proof.
  unfold step.
  destruct r as [random sc flip id msg|kc flip id msg]; simpl.
  - destruct (_spawn_lock self) eqn:L.
    + rewrite spawn_turtle_service_blocked by assumption. left. auto.
    + destruct (unique_name_total
                  (concert_service_msgs.spawn_request_name msg) self)
        as (d & _ & _ & _ & U).
      rewrite (spawn_turtle_service_run _ _ _ _ _ _ _ L U).
      destruct sc; cbn [fst snd app].
      * right. eexists.
        rewrite !flip_requests_app, !replies_app, !spawn_replies_app,
          flip_requests_flip_log, replies_flip_log, spawn_replies_flip_log.
        simpl. repeat split; try discriminate. apply incl_refl.
      * right. eexists.
        rewrite !flip_requests_app, !replies_app, !spawn_replies_app,
          flip_requests_flip_log, replies_flip_log, spawn_replies_flip_log.
        simpl. repeat split; try discriminate. apply incl_appl, incl_refl.
      * left. auto.
  - destruct (_kill_lock self) eqn:L.
    + rewrite kill_turtle_service_blocked by assumption. left. auto.
    + rewrite (kill_turtle_service_run _ _ _ _ _ L).
      destruct kc; cbn [fst snd app].
      * destruct (list_remove _ _) as [l|] eqn:R; [|left; auto].
        right. eexists. cbn [fst snd app].
        rewrite !flip_requests_app, !replies_app, !spawn_replies_app,
          !kill_calls_app, flip_requests_flip_log, replies_flip_log,
          spawn_replies_flip_log, kill_calls_flip_log.
        simpl. repeat split; try discriminate.
        eapply list_remove_incl. exact R.
      * right. eexists.
        rewrite !flip_requests_app, !replies_app, !spawn_replies_app,
          !kill_calls_app, flip_requests_flip_log, replies_flip_log,
          spawn_replies_flip_log, kill_calls_flip_log.
        simpl. repeat split; try discriminate. apply incl_refl.
      * left. auto.
Qed.

(** X14.  Replies and flip requests go in pairs: over any run, from any
    state, the gateway is sent exactly as many requests as callers are sent
    replies. *)
Theorem one_flip_request_per_reply (self : TurtleHerder) (rs : list request) :
  List.length (flip_requests (snd (run self rs)))
  = List.length (replies (snd (run self rs))).
Proof.
  revert self. induction rs as [|r rs IH]; intros self.
  - reflexivity.
  - rewrite run_cons. cbn [snd].
    rewrite flip_requests_app, replies_app, !length_app, IH.
    f_equal.
    destruct (step_trace_shape self r) as [(F & R & _)|(n & F & R & _)];
      now rewrite F, R.
Qed.

Lemma run_registered_incl (rs : list request) :
  forall self,
    Forall (fun self' =>
              incl (turtles self')
                   (turtles self ++ spawn_replies (snd (run self rs))))
           (fst (run self rs)).
Proof.
  induction rs as [|r rs IH]; intros self.
  - simpl. constructor; [|constructor]. apply incl_appl, incl_refl.
  - rewrite run_cons. cbn [fst snd]. constructor.
    + apply incl_appl, incl_refl.
    + eapply Forall_impl; [|apply IH].
      intros s Hs. rewrite spawn_replies_app.
      eapply incl_tran; [exact Hs|].
      apply incl_app; [|apply incl_appr, incl_appr, incl_refl].
      destruct (step_trace_shape self r)
        as [(_ & _ & S & T)|(n & _ & _ & Hs' & Hk)].
      * rewrite T. apply incl_appl, incl_refl.
      * destruct (cancel_of r) eqn:C.
        -- destruct (Hk eq_refl) as (_ & _ & I).
           eapply incl_tran; [exact I|]. apply incl_appl, incl_refl.
        -- destruct (Hs' eq_refl) as (-> & I).
           eapply incl_tran; [exact I|].
           apply incl_app; [apply incl_appl, incl_refl|].
           apply incl_appr, incl_appl, incl_refl.
Qed.

(** X15.  Only names that were handed to a caller are registered: in every
    state of a run from the empty registry, each registered name is one
    that a spawn reply of the run carries. *)
Theorem registered_names_were_replied (rs : list request) :
  let t := snd (run init rs) in
  Forall (fun self => incl (turtles self) (spawn_replies t))
         (fst (run init rs)).
Proof.
  exact (run_registered_incl rs init).
Qed.

(* ================================================================== *)
(** ** Channels of the live turtles *)

Lemma append_length (a b : string) :
  String.length (a ++ b)%string = String.length a + String.length b.
Proof. induction a; simpl; congruence. Qed.

Lemma append_inj_l (a b s : string) :
  (a ++ s)%string = (b ++ s)%string -> a = b.
Proof.
  revert b. induction a as [|c a IH]; intros [|c' b] H; simpl in H.
  - reflexivity.
  - apply (f_equal String.length) in H. simpl in H.
    rewrite append_length in H. lia.
  - apply (f_equal String.length) in H. simpl in H.
    rewrite append_length in H. lia.
  - injection H as -> H. f_equal. now apply IH.
Qed.

Lemma last_char_append (a b : string) :
  b <> "" -> last_char (a ++ b)%string = last_char b.
Proof.
  intros N. induction a as [|c a IH]; simpl.
  - reflexivity.
  - rewrite IH. destruct b as [|c' b]; [congruence|].
    simpl. destruct (last_char b); reflexivity.
Qed.

Lemma cmd_vel_channel_inj (n m : string) :
  cmd_vel_channel n = cmd_vel_channel m -> n = m.
Proof.
  unfold cmd_vel_channel. simpl. intros H.
  apply (append_inj_l _ _ "/cmd_vel").
  eapply (append_inj_r "/services/turtlesim/"). exact H.
Qed.

Lemma pose_channel_inj (n m : string) :
  pose_channel n = pose_channel m -> n = m.
Proof.
  unfold pose_channel. simpl. intros H.
  apply (append_inj_l _ _ "/pose").
  eapply (append_inj_r "/services/turtlesim/"). exact H.
Qed.

Lemma cmd_vel_is_not_pose (n m : string) :
  cmd_vel_channel n <> pose_channel m.
Proof.
  unfold cmd_vel_channel, pose_channel. simpl. intros H.
  apply (append_inj_r "/services/turtlesim/") in H.
  apply (f_equal last_char) in H.
  rewrite !last_char_append in H by discriminate.
  discriminate H.
Qed.

(** X16.  No two channels of live turtles coincide: in every state of a run
    from the empty registry, the command channels and the pose channels of
    the registered names, taken together, are pairwise different. *)
Theorem live_turtles_have_channels_of_their_own (rs : list request) :
  Forall (fun self =>
            NoDup (map cmd_vel_channel (turtles self)
                   ++ map pose_channel (turtles self)))
         (fst (run init rs)).
Proof.
  eapply Forall_impl; [|apply (run_NoDup rs init); constructor].
  intros self N. simpl in N.
  assert (D : forall l l',
             NoDup l -> NoDup l' ->
             NoDup (map cmd_vel_channel l ++ map pose_channel l')).
  { clear. intros l l' N N'. induction N as [|n l Hn N IH]; simpl.
    - apply Injective_map_NoDup; [|assumption].
      intros a b. apply pose_channel_inj.
    - constructor; [|assumption].
      rewrite in_app_iff, !in_map_iff.
      intros [(m & E & Hm)|(m & E & Hm)].
      + apply cmd_vel_channel_inj in E. now subst.
      + symmetry in E. now apply cmd_vel_is_not_pose in E. }
  now apply D.
Qed.

(** X17.  The gateway is only asked about names the run has produced: every
    request sent to it during a run is the two-rule request of some name
    with [gateway] that name; a registration ([cancel] false) names a turtle
    that a spawn reply of the run carries, a cancellation ([cancel] true) a
    name that was sent to the backend kill service. *)
Theorem flip_requests_name_turtles_of_the_run
    (self : TurtleHerder) (rs : list request) :
  let t := snd (run self rs) in
  Forall (fun request =>
            exists name,
              request = flip_request name (gateway_srvs.cancel request) /\
              In name (if gateway_srvs.cancel request
                       then kill_calls t else spawn_replies t))
         (flip_requests t).
Proof.
  cbv zeta. revert self. induction rs as [|r rs IH]; intros self.
  - constructor.
  - rewrite run_cons. cbn [snd].
    rewrite flip_requests_app, spawn_replies_app, kill_calls_app.
    apply Forall_app. split.
    + destruct (step_trace_shape self r)
        as [(-> & _)|(n & -> & _ & Hs & Hk)]; [constructor|].
      constructor; [|constructor].
      exists n. split; [reflexivity|]. simpl.
      destruct (cancel_of r).
      * destruct (Hk eq_refl) as (_ & -> & _). simpl. auto.
      * destruct (Hs eq_refl) as (-> & _). simpl. auto.
    + eapply Forall_impl; [|apply IH].
      intros q (n & E & H). exists n. split; [assumption|].
      destruct (gateway_srvs.cancel q); apply in_or_app; now right.
Qed.

(* ================================================================== *)
(** ** Shutdown after a run *)

Lemma kill_calls_kill_events (names : list string) :
  kill_calls (map kill_event names) = names.
Proof.
  induction names as [|n names IH]; simpl; [reflexivity|].
  now f_equal.
Qed.

Lemma NoDup_firstn (n : nat) (l : list string) :
  NoDup l -> NoDup (firstn n l).
Proof.
  intros N. rewrite <- (firstn_skipn n l) in N.
  eapply NoDup_app_remove_r. exact N.
Qed.

Lemma incl_firstn (n : nat) (l : list string) : incl (firstn n l) l.
Proof.
  intros x H. rewrite <- (firstn_skipn n l). apply in_or_app. now left.
Qed.

(** X18.  When the backend serves every call, [shutdown] asks it to kill
    every registered turtle, each once and in the registry's order; it
    sends nothing to the gateway, so the flip rules of these turtles are
    never cancelled, and it leaves the registry as it was. *)
Theorem served_shutdown_kills_every_turtle
    (kill_client : nat -> answer) (self : TurtleHerder) :
  (forall i, i < List.length (turtles self) -> kill_client i = Responds) ->
  shutdown kill_client self
  = (Normal tt, self, map kill_event (turtles self)) /\
  kill_calls (snd (shutdown kill_client self)) = turtles self /\
  flip_requests (snd (shutdown kill_client self)) = [].
Proof.
  intros S.
  destruct (shutdown_for_run kill_client self (turtles self) 0)
    as (n & Hn & R & _ & Hstop).
  assert (E : shutdown kill_client self
              = (Normal tt, self, map kill_event (turtles self))).
  { unfold shutdown, def, bind, gets. simpl. rewrite R.
    destruct (Nat.eq_dec n (List.length (turtles self))) as [->|N].
    - now rewrite firstn_all.
    - destruct Hstop as (i & -> & F); [lia|].
      exfalso. apply F. simpl. apply S. lia. }
  rewrite E. cbn [snd]. repeat split.
  - apply kill_calls_kill_events.
  - clear. induction (turtles self); simpl; auto.
Qed.

Lemma served_shutdown_kills_every_turtle_witness :
  let self := {| turtles := ["x"; "x_0"; "bob"];
                 _spawn_lock := false; _kill_lock := true |} in
  shutdown (fun _ => Responds) self
  = (Normal tt, self, map kill_event ["x"; "x_0"; "bob"]) /\
  kill_calls (snd (shutdown (fun _ => Responds) self)) = ["x"; "x_0"; "bob"] /\
  flip_requests (snd (shutdown (fun _ => Responds) self)) = [].
Proof.
  apply (served_shutdown_kills_every_turtle
           (fun _ => Responds)
           {| turtles := ["x"; "x_0"; "bob"];
              _spawn_lock := false; _kill_lock := true |}).
  reflexivity.
Defined.

Lemma shutdown_calls_of_a_state
    (kill_client : nat -> answer) (self : TurtleHerder)
    (replied : list string) :
  NoDup (turtles self) ->
  incl (turtles self) replied ->
  NoDup (kill_calls (snd (shutdown kill_client self))) /\
  incl (kill_calls (snd (shutdown kill_client self))) replied.
Proof.
  intros N I.
  destruct (shutdown_for_run kill_client self (turtles self) 0)
    as (n & _ & R & _).
  assert (E : snd (shutdown kill_client self)
              = map kill_event (firstn n (turtles self))).
  { unfold shutdown, def, bind, gets. simpl. now rewrite R. }
  rewrite E, kill_calls_kill_events. split.
  - now apply NoDup_firstn.
  - eapply incl_tran; [apply incl_firstn | exact I].
Qed.

(** X19.  Whenever the node shuts down during a run from the empty
    registry, whatever the backend answers then: [shutdown] asks for no
    turtle to be killed twice, and only for turtles whose names were
    replied to spawn callers. *)
Theorem shutdown_after_a_run_kills_each_turtle_once
    (kill_client : nat -> answer) (rs : list request) :
  Forall (fun self =>
            NoDup (kill_calls (snd (shutdown kill_client self))) /\
            incl (kill_calls (snd (shutdown kill_client self)))
                 (spawn_replies (snd (run init rs))))
         (fst (run init rs)).
Proof.
  pose proof (run_NoDup rs init (NoDup_nil _)) as N.
  pose proof (run_registered_incl rs init) as I.
  rewrite Forall_forall in *. intros self H.
  apply shutdown_calls_of_a_state; [exact (N self H) | exact (I self H)].
Qed.

(* ================================================================== *)
(** ** Construction and the whole program *)

Lemma last_In (d : TurtleHerder) (l : list TurtleHerder) :
  l <> [] -> In (last l d) l.
Proof.
  induction l as [|a l IH]; intros N; [congruence|].
  destruct l as [|b l]; [now left|].
  right. apply IH. discriminate.
Qed.

Lemma last_state_of_run (self : TurtleHerder) (rs : list request) :
  In (last (fst (run self rs)) self) (fst (run self rs)).
Proof.
  apply last_In. destruct rs; [simpl; discriminate|].
  rewrite run_cons. discriminate.
Qed.

(** X20.  The constructor always yields an empty registry with both locks
    free and asks the backend for exactly one kill, that of ["turtle1"].
    A failure of that kill does not stop it: unless the call is
    interrupted, it goes on to the gateway and creates the ["kill"] and the
    ["spawn"] server, in this order.  When the call is interrupted it
    returns at once: no server is created, the gateway is not looked up
    and no proxy to its flip service is made. *)
Theorem constructor_serves_unless_interrupted
    (kill_client : answer) (gateway_namespace : string) :
  let '(self, t, serving) := __init__ kill_client gateway_namespace in
  self = init /\
  startup_kills t = ["turtle1"] /\
  serving = negb (interrupted kill_client) /\
  servers t = (if serving then ["kill"; "spawn"] else []) /\
  (In ResolveLocalGateway t <-> serving = true) /\
  (In (ServiceProxy (gateway_namespace ++ "/flip")%string false) t <->
   serving = true).
Proof.
  destruct kill_client; simpl; repeat split;
    try reflexivity; try discriminate; intuition congruence.
Qed.

(** X21.  When the constructor is interrupted, the program serves no
    request and its [shutdown] asks the backend for nothing. *)
Theorem interrupted_start_serves_nothing
    (gateway_namespace : string) (rs : list request)
    (kill_client : nat -> answer) :
  let '(started, served, stopped) :=
    main Interrupted gateway_namespace rs kill_client in
  servers started = [] /\ served = [] /\ stopped = [].
Proof. repeat split. Qed.

(** X22.  Over the whole program, when the constructor is not interrupted:
    the turtles [shutdown] asks the backend to kill are pairwise different
    and were all replied to spawn callers while the program served. *)
Theorem program_kills_at_shutdown_only_turtles_it_handed_out
    (kill_turtle1 : answer) (gateway_namespace : string)
    (rs : list request) (kill_client : nat -> answer) :
  kill_turtle1 <> Interrupted ->
  let '(started, served, stopped) :=
    main kill_turtle1 gateway_namespace rs kill_client in
  servers started = ["kill"; "spawn"] /\
  NoDup (kill_calls stopped) /\
  incl (kill_calls stopped) (spawn_replies served).
Proof.
  intros I.
  assert (E : exists started,
             __init__ kill_turtle1 gateway_namespace = (init, started, true)
             /\ servers started = ["kill"; "spawn"]).
  { destruct kill_turtle1; [| |congruence]; eexists; split; reflexivity. }
  destruct E as (started & E & S).
  unfold main. rewrite E.
  pose proof (run_NoDup rs init (NoDup_nil _)) as N.
  pose proof (run_registered_incl rs init) as R.
  pose proof (last_state_of_run init rs) as L.
  destruct (run init rs) as [states served]. cbn [fst snd] in *.
  rewrite Forall_forall in N, R.
  destruct (shutdown_calls_of_a_state kill_client (last states init)
              (spawn_replies served) (N _ L) (R _ L)) as [ND IN].
  destruct (shutdown kill_client (last states init)) as [[res self'] stopped].
  cbn [snd] in *. auto.
Qed.

Lemma program_kills_at_shutdown_only_turtles_it_handed_out_witness :
  let '(started, served, stopped) :=
    main (Fails "no turtle1") "/gateway"
         [ SpawnTurtle (5 # 1, 4 # 1, 1 # 1)%Q Responds Responds "a"
             {| concert_service_msgs.spawn_request_name := "bob" |};
           SpawnTurtle (4 # 1, 4 # 1, 2 # 1)%Q Responds Responds "b"
             {| concert_service_msgs.spawn_request_name := "bob" |} ]
         (fun _ => Responds) in
  servers started = ["kill"; "spawn"] /\
  NoDup (kill_calls stopped) /\
  incl (kill_calls stopped) (spawn_replies served).
Proof.
  apply (program_kills_at_shutdown_only_turtles_it_handed_out
           (Fails "no turtle1") "/gateway"
           [ SpawnTurtle (5 # 1, 4 # 1, 1 # 1)%Q Responds Responds "a"
               {| concert_service_msgs.spawn_request_name := "bob" |};
             SpawnTurtle (4 # 1, 4 # 1, 2 # 1)%Q Responds Responds "b"
               {| concert_service_msgs.spawn_request_name := "bob" |} ]
           (fun _ => Responds)).
  discriminate.
Defined.

(** X23.  A served kill of a name that is not registered ends in an
    uncaught [ValueError] right after the backend call: the caller gets no
    reply, nothing is sent to the gateway, the registry is as it was and
    the kill lock stays held. *)
Theorem served_kill_of_unregistered_name_raises
    (flip : answer) (request_id : UniqueID)
    (msg : concert_service_msgs.KillTurtleRequest) (self : TurtleHerder) :
  _kill_lock self = false ->
  let name := concert_service_msgs.kill_request_name msg in
  ~ In name (turtles self) ->
  let '(result, self', t) :=
    handle (KillTurtle Responds flip request_id msg) self in
  result = Raised ValueError /\
  t = [LockAcquire KillLock; kill_event name] /\
  replies t = [] /\ flip_requests t = [] /\
  turtles self' = turtles self /\
  _spawn_lock self' = _spawn_lock self /\
  _kill_lock self' = true.
Proof.
  intros L name H. simpl.
  rewrite (kill_turtle_service_run _ _ _ _ _ L).
  apply list_remove_None in H. subst name. cbv zeta. rewrite H.
  repeat split.
Qed.

Lemma served_kill_of_unregistered_name_raises_witness :
  let '(result, self', t) :=
    handle (KillTurtle Responds Responds "id"
              {| concert_service_msgs.kill_request_name := "turtle1" |})
           {| turtles := ["bob"]; _spawn_lock := false; _kill_lock := false |}
  in
  result = Raised ValueError /\
  t = [LockAcquire KillLock; kill_event "turtle1"] /\
  replies t = [] /\ flip_requests t = [] /\
  turtles self' = ["bob"] /\
  _spawn_lock self' = false /\
  _kill_lock self' = true.
Proof.
  apply (served_kill_of_unregistered_name_raises Responds "id"
           {| concert_service_msgs.kill_request_name := "turtle1" |}
           {| turtles := ["bob"]; _spawn_lock := false; _kill_lock := false |}).
  - reflexivity.
  - simpl. intros [E|[]]. discriminate E.
Defined.
